(** * nvidia-gpu-exporter: the collection cycle

    A shallow embedding of [Exporter.Collect] (nvidia_gpu_exporter.go) and the
    properties of one collection cycle: which series a cycle emits, what a
    failed query removes, and what survives from one cycle to the next.

    The NVML bindings and the Prometheus client are external libraries.  They
    are modelled at the interface the exporter uses: an NVML query returns a
    pair of a value and a [Return] code; a [GaugeVec] is a finite map from
    label values to the gauge value; the metric channel is the list of the
    metrics sent on it.  [Collect] holds the exporter's mutex from its first
    statement to its last, so the body is modelled as one state transformer.

    The client panics when it is handed a label value that is not valid UTF-8.
    [Collect] and [Collect_log] describe the cycles that return;
    [Collect_checked] has the panics, and agrees with them on every source
    whose label strings are valid ([labels_valid]).  The theorems that promise
    a metric or a log record are stated for such sources. *)

From Stdlib Require Import ZArith DecimalString Ascii.
From Stdlib Require DecimalZ DecimalPos.
From stdpp Require Import gmap strings list fin_maps.

Open Scope Z_scope.

(** ** Go primitives *)

(** [strconv.Itoa]: the decimal representation of an [int]. *)
Definition Itoa (z : Z) : string := NilZero.string_of_int (Z.to_int z).

(** The conversion [float64(x)] of an integer: the nearest value with a 53-bit
    significand, ties to even.  The result of converting an integer is itself
    an integer, so gauge values are kept in [Z].  All the integers converted by
    the exporter are below 2^64, far from the overflow threshold. *)
Definition float64 (x : Z) : Z :=
  let a := Z.abs x in
  if a <? 2 ^ 53 then x
  else
    let e := Z.log2 a - 52 in
    let q := a / 2 ^ e in
    let r := a mod 2 ^ e in
    let half := 2 ^ (e - 1) in
    let q' := if r <? half then q
              else if half <? r then q + 1
              else if Z.even q then q else q + 1 in
    Z.sgn x * (q' * 2 ^ e).

(** ** The NVML interface, as the exporter consumes it *)

Module nvml.

(** [nvml.Return]: the C return code; [SUCCESS] is 0. *)
Definition Return := Z.
Definition SUCCESS : Return := 0.

(** [nvml.Device]: an opaque handle. *)
Definition Device := Z.

Record Memory := { Total : Z; Free : Z; Used : Z }.
Record Utilization := { Gpu : Z; Memory_ : Z }.

Definition TemperatureSensors := Z.
Definition TEMPERATURE_GPU : TemperatureSensors := 0.

(** The answers of the library during one cycle.  Every query returns a
    value together with a return code, as the Go bindings do; on failure the
    value is whatever the binding left there. *)
Record Source := {
  SystemGetDriverVersion : string * Return;
  DeviceGetCount : Z * Return;
  DeviceGetHandleByIndex : Z -> Device * Return;
  GetMinorNumber : Device -> Z * Return;
  GetUUID : Device -> string * Return;
  GetName : Device -> string * Return;
  GetMemoryInfo : Device -> Memory * Return;
  GetUtilizationRates : Device -> Utilization * Return;
  GetPowerUsage : Device -> Z * Return;
  GetTemperature : Device -> TemperatureSensors -> Z * Return;
  GetFanSpeed : Device -> Z * Return
}.

End nvml.

(** [ret != nvml.SUCCESS] *)
Definition failed (ret : nvml.Return) : bool := negb (ret =? nvml.SUCCESS).

(** ** The Prometheus client, as the exporter uses it *)

Module prometheus.

(** [prometheus.BuildFQName] *)
Definition BuildFQName (namespace subsystem name : string) : string :=
  if decide (name = EmptyString) then EmptyString
  else if decide (namespace ≠ EmptyString ∧ subsystem ≠ EmptyString) then
    namespace +:+ "_" +:+ subsystem +:+ "_" +:+ name
  else if decide (namespace ≠ EmptyString) then namespace +:+ "_" +:+ name
  else if decide (subsystem ≠ EmptyString) then subsystem +:+ "_" +:+ name
  else name.

Record Desc := { fqName : string; variableLabels : list string }.

(** A metric as it is read off the channel: its descriptor, the values of
    the descriptor's labels, and the sample value. *)
Record Metric := { desc : Desc; labelValues : list string; value : Z }.

#[global] Instance Desc_eq_dec : EqDecision Desc.
Proof. solve_decision. Defined.

#[global] Instance Metric_eq_dec : EqDecision Metric.
Proof. solve_decision. Defined.

(** [prometheus.MustNewConstMetric(desc, GaugeValue, value, labelValues...)],
    when it returns. *)
Definition MustNewConstMetric (d : Desc) (v : Z) (lvs : list string) : Metric :=
  {| desc := d; labelValues := lvs; value := v |}.

(** The label values of a device-scoped gauge: minor number, UUID, name. *)
Abbreviation LabelValues := (string * string * string)%type.

(** The children of a [GaugeVec], keyed by their label values. *)
Abbreviation GaugeVec := (gmap LabelValues Z).

(** [vec.Reset()] deletes every child. *)
Definition Reset (v : GaugeVec) : GaugeVec := ∅.

(** [vec.WithLabelValues(minor, uuid, name).Set(x)], when it returns: the
    child is created when it does not exist, and its value is overwritten. *)
Definition WithLabelValues_Set (lvs : LabelValues) (x : Z) (v : GaugeVec) : GaugeVec :=
  <[lvs := x]> v.

End prometheus.

Import nvml prometheus.

(** ** The exporter *)

Definition namespace : string := "nvidia_gpu".
Definition deviceLabels : list string := ["minor_number"; "uuid"; "name"].
Definition gpuInfoLabels : list string := ["driver_version"].

(** The six device-scoped gauge vectors of the exporter. *)
Inductive Kind :=
  UsedMemory | TotalMemory | DutyCycle | PowerUsage | Temperature | FanSpeed.

#[global] Instance Kind_eq_dec : EqDecision Kind.
Proof. solve_decision. Defined.

Definition all_kinds : list Kind :=
  [UsedMemory; TotalMemory; DutyCycle; PowerUsage; Temperature; FanSpeed].

(** The descriptors built once by [NewExporter]; they are never mutated. *)
Definition gpuInfo : Desc :=
  {| fqName := BuildFQName namespace EmptyString "gpu_info"; variableLabels := gpuInfoLabels |}.

Definition numDevices_desc : Desc :=
  {| fqName := BuildFQName namespace EmptyString "num_devices"; variableLabels := [] |}.

Definition vec_name (k : Kind) : string :=
  match k with
  | UsedMemory => "memory_used_bytes"
  | TotalMemory => "memory_total_bytes"
  | DutyCycle => "duty_cycle"
  | PowerUsage => "power_usage_milliwatts"
  | Temperature => "temperature_celsius"
  | FanSpeed => "fanspeed_percent"
  end.

Definition vec_desc (k : Kind) : Desc :=
  {| fqName := BuildFQName namespace EmptyString (vec_name k); variableLabels := deviceLabels |}.

(** The mutable part of [Exporter]: the value of the [numDevices] gauge and the
    children of the six vectors. *)
Record Exporter := {
  numDevices : Z;
  usedMemory : GaugeVec;
  totalMemory : GaugeVec;
  dutyCycle : GaugeVec;
  powerUsage : GaugeVec;
  temperature : GaugeVec;
  fanSpeed : GaugeVec
}.

Definition NewExporter : Exporter :=
  {| numDevices := 0; usedMemory := ∅; totalMemory := ∅; dutyCycle := ∅;
     powerUsage := ∅; temperature := ∅; fanSpeed := ∅ |}.

Definition vec (k : Kind) (e : Exporter) : GaugeVec :=
  match k with
  | UsedMemory => usedMemory e
  | TotalMemory => totalMemory e
  | DutyCycle => dutyCycle e
  | PowerUsage => powerUsage e
  | Temperature => temperature e
  | FanSpeed => fanSpeed e
  end.

Definition set_vec (k : Kind) (f : GaugeVec -> GaugeVec) (e : Exporter) : Exporter :=
  match k with
  | UsedMemory =>
      {| numDevices := numDevices e; usedMemory := f (usedMemory e);
         totalMemory := totalMemory e; dutyCycle := dutyCycle e;
         powerUsage := powerUsage e; temperature := temperature e;
         fanSpeed := fanSpeed e |}
  | TotalMemory =>
      {| numDevices := numDevices e; usedMemory := usedMemory e;
         totalMemory := f (totalMemory e); dutyCycle := dutyCycle e;
         powerUsage := powerUsage e; temperature := temperature e;
         fanSpeed := fanSpeed e |}
  | DutyCycle =>
      {| numDevices := numDevices e; usedMemory := usedMemory e;
         totalMemory := totalMemory e; dutyCycle := f (dutyCycle e);
         powerUsage := powerUsage e; temperature := temperature e;
         fanSpeed := fanSpeed e |}
  | PowerUsage =>
      {| numDevices := numDevices e; usedMemory := usedMemory e;
         totalMemory := totalMemory e; dutyCycle := dutyCycle e;
         powerUsage := f (powerUsage e); temperature := temperature e;
         fanSpeed := fanSpeed e |}
  | Temperature =>
      {| numDevices := numDevices e; usedMemory := usedMemory e;
         totalMemory := totalMemory e; dutyCycle := dutyCycle e;
         powerUsage := powerUsage e; temperature := f (temperature e);
         fanSpeed := fanSpeed e |}
  | FanSpeed =>
      {| numDevices := numDevices e; usedMemory := usedMemory e;
         totalMemory := totalMemory e; dutyCycle := dutyCycle e;
         powerUsage := powerUsage e; temperature := temperature e;
         fanSpeed := f (fanSpeed e) |}
  end.

(** [e.numDevices.Set(x)] *)
Definition numDevices_Set (x : Z) (e : Exporter) : Exporter :=
  {| numDevices := x; usedMemory := usedMemory e; totalMemory := totalMemory e;
     dutyCycle := dutyCycle e; powerUsage := powerUsage e;
     temperature := temperature e; fanSpeed := fanSpeed e |}.

(** [ch <- e.numDevices]: the gauge of exporter [e], as it reads while [e] is
    the state of the exporter.  The channel carries the gauge itself: what a
    reader finds in it is the value the exporter holds at the time of the
    read, which is the value at the end of the cycle as long as no later
    cycle has run. *)
Definition numDevices_metric (e : Exporter) : Metric :=
  {| desc := numDevices_desc; labelValues := []; value := numDevices e |}.

(** The order in which Go ranges over the children of a vector is not
    specified: a cycle is run against an arbitrary enumeration order. *)
Record MapOrder := {
  range : Kind -> list (LabelValues * Z) -> list (LabelValues * Z);
  range_perm : ∀ k l, range k l ≡ₚ l
}.

Definition child_metric (k : Kind) (c : LabelValues * Z) : Metric :=
  let '((minor, uuid, name), x) := c in
  {| desc := vec_desc k; labelValues := [minor; uuid; name]; value := x |}.

Arguments child_metric : simpl never.

(** [vec.Collect(ch)]: every child is sent on the channel. *)
Definition vec_Collect (o : MapOrder) (k : Kind) (e : Exporter) : list Metric :=
  child_metric k <$> range o k (map_to_list (vec k e)).

(** Lines 131-136: the six [Reset] calls. *)
Definition reset_vecs (e : Exporter) : Exporter :=
  let e := set_vec UsedMemory Reset e in
  let e := set_vec TotalMemory Reset e in
  let e := set_vec DutyCycle Reset e in
  let e := set_vec PowerUsage Reset e in
  let e := set_vec Temperature Reset e in
  set_vec FanSpeed Reset e.

(** Lines 154-218: the body of the loop for index [i].  A [continue] leaves
    the exporter as it is. *)
Definition device_body (nv : Source) (i : Z) (e : Exporter) : Exporter :=
  let '(device, ret) := DeviceGetHandleByIndex nv i in
  if failed ret then e else
  let '(minorNumber, ret) := GetMinorNumber nv device in
  if failed ret then e else
  let minor := Itoa minorNumber in
  let '(uuid, ret) := GetUUID nv device in
  if failed ret then e else
  let '(name, ret) := GetName nv device in
  if failed ret then e else
  let e :=
    let '(memoryInfo, ret) := GetMemoryInfo nv device in
    if failed ret then e
    else
      let e := set_vec UsedMemory
                 (WithLabelValues_Set (minor, uuid, name) (float64 (Used memoryInfo))) e in
      set_vec TotalMemory
        (WithLabelValues_Set (minor, uuid, name) (float64 (Total memoryInfo))) e in
  let e :=
    let '(utilization, ret) := GetUtilizationRates nv device in
    if failed ret then e
    else set_vec DutyCycle
           (WithLabelValues_Set (minor, uuid, name) (float64 (Gpu utilization))) e in
  let e :=
    let '(powerUsage, ret) := GetPowerUsage nv device in
    if failed ret then e
    else set_vec PowerUsage
           (WithLabelValues_Set (minor, uuid, name) (float64 powerUsage)) e in
  let e :=
    let '(temperature, ret) := GetTemperature nv device TEMPERATURE_GPU in
    if failed ret then e
    else set_vec Temperature
           (WithLabelValues_Set (minor, uuid, name) (float64 temperature)) e in
  let '(fanSpeed, ret) := GetFanSpeed nv device in
  if failed ret then e
  else set_vec FanSpeed
         (WithLabelValues_Set (minor, uuid, name) (float64 fanSpeed)) e.

(** [for i := 0; i < int(numDevices); i++ { ... }] *)
Definition device_loop (nv : Source) (n : Z) (e : Exporter) : Exporter :=
  fold_left (fun e i => device_body nv (Z.of_nat i) e) (seq 0 (Z.to_nat n)) e.

(** Lines 221-226: the six [Collect] calls. *)
Definition collect_vecs (o : MapOrder) (e : Exporter) : list Metric :=
  vec_Collect o UsedMemory e ++ vec_Collect o TotalMemory e ++
  vec_Collect o DutyCycle e ++ vec_Collect o PowerUsage e ++
  vec_Collect o Temperature e ++ vec_Collect o FanSpeed e.

(** [Exporter.Collect]: the exporter after the cycle and the metrics sent on
    the channel, in the order they were sent. *)
Definition Collect (o : MapOrder) (nv : Source) (e : Exporter) : Exporter * list Metric :=
  let e := reset_vecs e in
  let ch : list Metric := [] in
  let '(driverVersion, ret) := SystemGetDriverVersion nv in
  let ch :=
    if failed ret then ch
    else ch ++ [MustNewConstMetric gpuInfo 1 [driverVersion]] in
  let '(count, ret) := DeviceGetCount nv in
  if failed ret then (e, ch) else
  let e := numDevices_Set (float64 count) e in
  let ch := ch ++ [numDevices_metric e] in
  let e := device_loop nv count e in
  (e, ch ++ collect_vecs o e).

(** ** What a cycle sees of a device *)

(** The device at index [i] is identified when its handle and its three
    identity fields are resolved; its label values are then the minor number
    in decimal, the UUID and the name. *)
Definition identify (nv : Source) (i : Z) : option (Device * LabelValues) :=
  let '(device, r0) := DeviceGetHandleByIndex nv i in
  let '(minorNumber, r1) := GetMinorNumber nv device in
  let '(uuid, r2) := GetUUID nv device in
  let '(name, r3) := GetName nv device in
  if failed r0 || failed r1 || failed r2 || failed r3 then None
  else Some (device, (Itoa minorNumber, uuid, name)).

(** The five telemetry queries issued by the loop body for one device. *)
Inductive Query :=
  QMemoryInfo | QUtilizationRates | QPowerUsage | QTemperature | QFanSpeed.

#[global] Instance Query_eq_dec : EqDecision Query.
Proof. solve_decision. Defined.

(** The query that feeds each vector. *)
Definition query_of (k : Kind) : Query :=
  match k with
  | UsedMemory | TotalMemory => QMemoryInfo
  | DutyCycle => QUtilizationRates
  | PowerUsage => QPowerUsage
  | Temperature => QTemperature
  | FanSpeed => QFanSpeed
  end.

Definition query_ret (nv : Source) (d : Device) (q : Query) : Return :=
  match q with
  | QMemoryInfo => (GetMemoryInfo nv d).2
  | QUtilizationRates => (GetUtilizationRates nv d).2
  | QPowerUsage => (GetPowerUsage nv d).2
  | QTemperature => (GetTemperature nv d TEMPERATURE_GPU).2
  | QFanSpeed => (GetFanSpeed nv d).2
  end.

(** The integer a successful query yields for each vector. *)
Definition raw_field (nv : Source) (d : Device) (k : Kind) : Z :=
  match k with
  | UsedMemory => Used (GetMemoryInfo nv d).1
  | TotalMemory => Total (GetMemoryInfo nv d).1
  | DutyCycle => Gpu (GetUtilizationRates nv d).1
  | PowerUsage => (GetPowerUsage nv d).1
  | Temperature => (GetTemperature nv d TEMPERATURE_GPU).1
  | FanSpeed => (GetFanSpeed nv d).1
  end.

(** The value the loop body stores in vector [k] for device [d], if any. *)
Definition field (nv : Source) (d : Device) (k : Kind) : option Z :=
  if failed (query_ret nv d (query_of k)) then None
  else Some (float64 (raw_field nv d k)).

(** The value held for label values [l] in vector [k] after the first [n]
    indices, starting from an empty vector: the last successful write. *)
Fixpoint written (nv : Source) (k : Kind) (l : LabelValues) (n : nat) : option Z :=
  match n with
  | O => None
  | S n' =>
      match identify nv (Z.of_nat n') with
      | Some (d, l') =>
          if decide (l' = l) then
            match field nv d k with
            | Some x => Some x
            | None => written nv k l n'
            end
          else written nv k l n'
      | None => written nv k l n'
      end
  end.

(** Series [k] for label values [l] is in the stream. *)
Definition present (k : Kind) (l : LabelValues) (ch : list Metric) : Prop :=
  ∃ x, child_metric k (l, x) ∈ ch.

(** A metric of one of the six device-scoped vectors. *)
Definition device_scoped (m : Metric) : Prop := ∃ k, desc m = vec_desc k.

#[global] Instance device_scoped_dec m : Decision (device_scoped m).
Proof.
  refine (cast_if (decide (Exists (λ k, desc m = vec_desc k) all_kinds)));
    unfold device_scoped; rewrite ?Exists_exists in *.
  - destruct e as (k & _ & Hk). by exists k.
  - intros [k Hk]. apply n. exists k. split; [|done].
    destruct k; set_solver.
Defined.

(** The identity of a series: the descriptor's name and the label values.  A
    stream is well formed when no series occurs twice in it. *)
Definition series (m : Metric) : string * list string := (fqName (desc m), labelValues m).

Definition well_formed (ch : list Metric) : Prop :=
  NoDup (series <$> ch) ∧
  Forall (λ m, length (labelValues m) = length (variableLabels (desc m))) ch.

(** Two enumeration orders of a vector's children. *)
Definition order_id : MapOrder :=
  {| range := λ _ l, l; range_perm := λ _ l, reflexivity l |}.

Definition order_rev : MapOrder :=
  {| range := λ _ l, reverse l; range_perm := λ _ l, reverse_Permutation l |}.

(** The handle or one of the three identity fields of index [i] is not resolved. *)
Definition identity_failure (nv : Source) (i : Z) : Prop :=
  let d := (DeviceGetHandleByIndex nv i).1 in
  (DeviceGetHandleByIndex nv i).2 ≠ SUCCESS ∨
  (GetMinorNumber nv d).2 ≠ SUCCESS ∨
  (GetUUID nv d).2 ≠ SUCCESS ∨
  (GetName nv d).2 ≠ SUCCESS.

(** The part of the stream sent before the device count is known. *)
Definition driver_info (nv : Source) : list Metric :=
  if failed (SystemGetDriverVersion nv).2 then []
  else [MustNewConstMetric gpuInfo 1 [(SystemGetDriverVersion nv).1]].

(** The exporter at the end of a cycle that got a device count [n]. *)
Definition after_loop (nv : Source) (n : Z) (e : Exporter) : Exporter :=
  device_loop nv n (numDevices_Set (float64 n) (reset_vecs e)).

(** ** Variations of a source *)

(** The same source with another answer to the driver-version query. *)
Definition with_driver (a : string * Return) (nv : Source) : Source :=
  {| SystemGetDriverVersion := a;
     DeviceGetCount := DeviceGetCount nv;
     DeviceGetHandleByIndex := DeviceGetHandleByIndex nv;
     GetMinorNumber := GetMinorNumber nv;
     GetUUID := GetUUID nv;
     GetName := GetName nv;
     GetMemoryInfo := GetMemoryInfo nv;
     GetUtilizationRates := GetUtilizationRates nv;
     GetPowerUsage := GetPowerUsage nv;
     GetTemperature := GetTemperature nv;
     GetFanSpeed := GetFanSpeed nv |}.

(** The same source with another answer to the device-count query. *)
Definition with_count (a : Z * Return) (nv : Source) : Source :=
  {| SystemGetDriverVersion := SystemGetDriverVersion nv;
     DeviceGetCount := a;
     DeviceGetHandleByIndex := DeviceGetHandleByIndex nv;
     GetMinorNumber := GetMinorNumber nv;
     GetUUID := GetUUID nv;
     GetName := GetName nv;
     GetMemoryInfo := GetMemoryInfo nv;
     GetUtilizationRates := GetUtilizationRates nv;
     GetPowerUsage := GetPowerUsage nv;
     GetTemperature := GetTemperature nv;
     GetFanSpeed := GetFanSpeed nv |}.

(** Answers to the five telemetry queries of one device. *)
Record FieldAnswers := {
  memoryInfo_answer : Memory * Return;
  utilization_answer : Utilization * Return;
  powerUsage_answer : Z * Return;
  temperature_answer : TemperatureSensors → Z * Return;
  fanSpeed_answer : Z * Return
}.

(** The same source with other answers to the telemetry queries of the device
    with handle [d]. *)
Definition with_fields (d : Device) (a : FieldAnswers) (nv : Source) : Source :=
  {| SystemGetDriverVersion := SystemGetDriverVersion nv;
     DeviceGetCount := DeviceGetCount nv;
     DeviceGetHandleByIndex := DeviceGetHandleByIndex nv;
     GetMinorNumber := GetMinorNumber nv;
     GetUUID := GetUUID nv;
     GetName := GetName nv;
     GetMemoryInfo := λ d', if decide (d' = d) then memoryInfo_answer a else GetMemoryInfo nv d';
     GetUtilizationRates :=
       λ d', if decide (d' = d) then utilization_answer a else GetUtilizationRates nv d';
     GetPowerUsage := λ d', if decide (d' = d) then powerUsage_answer a else GetPowerUsage nv d';
     GetTemperature :=
       λ d', if decide (d' = d) then temperature_answer a else GetTemperature nv d';
     GetFanSpeed := λ d', if decide (d' = d) then fanSpeed_answer a else GetFanSpeed nv d' |}.

(** ** Concrete telemetry sources *)

Module Examples.

Definition ERROR_NOT_SUPPORTED : Return := 3.
Definition ERROR_UNKNOWN : Return := 999.

(** Section 8 of the specification: two devices, the second without a fan
    sensor. *)
Definition two_devices : Source :=
  {| SystemGetDriverVersion := ("535.104", SUCCESS);
     DeviceGetCount := (2, SUCCESS);
     DeviceGetHandleByIndex := λ i, (100 + i, SUCCESS);
     GetMinorNumber := λ d, (d - 100, SUCCESS);
     GetUUID := λ d, (if d =? 100 then "GPU-A" else "GPU-B", SUCCESS);
     GetName := λ d, ("X", SUCCESS);
     GetMemoryInfo := λ d, ({| Total := 1000; Free := 900; Used := 100 |}, SUCCESS);
     GetUtilizationRates := λ d, ({| Gpu := 50; Memory_ := 10 |}, SUCCESS);
     GetPowerUsage := λ d, (5000, SUCCESS);
     GetTemperature := λ d s, (60, SUCCESS);
     GetFanSpeed := λ d, if d =? 100 then (30, SUCCESS) else (0, ERROR_NOT_SUPPORTED) |}.

Definition dev0 : LabelValues := ("0", "GPU-A", "X").
Definition dev1 : LabelValues := ("1", "GPU-B", "X").

(** The second device has been removed. *)
Definition one_device : Source := with_count (1, SUCCESS) two_devices.

(** The library does not answer the count. *)
Definition count_fails : Source := with_count (0, ERROR_UNKNOWN) two_devices.

(** Neither the count nor the driver version is answered. *)
Definition library_down : Source :=
  with_driver (EmptyString, ERROR_UNKNOWN) count_fails.

(** The memory query of the first device fails, and no other query does. *)
Definition memory_query_fails : Source :=
  with_fields 100
    {| memoryInfo_answer := ({| Total := 0; Free := 0; Used := 0 |}, ERROR_UNKNOWN);
       utilization_answer := ({| Gpu := 50; Memory_ := 10 |}, SUCCESS);
       powerUsage_answer := (5000, SUCCESS);
       temperature_answer := λ _, (60, SUCCESS);
       fanSpeed_answer := (30, SUCCESS) |}
    one_device.

(** Three devices; the UUID of the one at index 1 cannot be read. *)
Definition uuid_unreadable : Source :=
  {| SystemGetDriverVersion := ("535.104", SUCCESS);
     DeviceGetCount := (3, SUCCESS);
     DeviceGetHandleByIndex := λ i, (100 + i, SUCCESS);
     GetMinorNumber := λ d, (d - 100, SUCCESS);
     GetUUID := λ d, if d =? 101 then (EmptyString, ERROR_UNKNOWN)
                     else (if d =? 100 then "GPU-A" else "GPU-C", SUCCESS);
     GetName := λ d, ("X", SUCCESS);
     GetMemoryInfo := λ d, ({| Total := 1000; Free := 900; Used := 100 |}, SUCCESS);
     GetUtilizationRates := λ d, ({| Gpu := 50; Memory_ := 10 |}, SUCCESS);
     GetPowerUsage := λ d, (5000, SUCCESS);
     GetTemperature := λ d s, (60, SUCCESS);
     GetFanSpeed := λ d, (30, SUCCESS) |}.

Definition dev2 : LabelValues := ("2", "GPU-C", "X").

(** Three devices are counted and no handle can be obtained. *)
Definition no_handles : Source :=
  {| SystemGetDriverVersion := ("535.104", SUCCESS);
     DeviceGetCount := (3, SUCCESS);
     DeviceGetHandleByIndex := λ i, (0, ERROR_UNKNOWN);
     GetMinorNumber := λ d, (0, ERROR_UNKNOWN);
     GetUUID := λ d, (EmptyString, ERROR_UNKNOWN);
     GetName := λ d, (EmptyString, ERROR_UNKNOWN);
     GetMemoryInfo := λ d, ({| Total := 0; Free := 0; Used := 0 |}, ERROR_UNKNOWN);
     GetUtilizationRates := λ d, ({| Gpu := 0; Memory_ := 0 |}, ERROR_UNKNOWN);
     GetPowerUsage := λ d, (0, ERROR_UNKNOWN);
     GetTemperature := λ d s, (0, ERROR_UNKNOWN);
     GetFanSpeed := λ d, (0, ERROR_UNKNOWN) |}.

End Examples.

(** ** The descriptors of the exporter *)

(** [vec.Describe(ch)] sends the descriptor of the vector. *)
Definition vec_Describe (k : Kind) : list Desc := [vec_desc k].

(** [Exporter.Describe]: the descriptors sent on the channel, in order. *)
Definition Describe (e : Exporter) : list Desc :=
  [gpuInfo] ++ [numDevices_desc] ++
  vec_Describe UsedMemory ++ vec_Describe TotalMemory ++
  vec_Describe DutyCycle ++ vec_Describe PowerUsage ++
  vec_Describe Temperature ++ vec_Describe FanSpeed.

(** ** What a cycle logs *)

(** A record written by [level.Error(e.logger).Log(...)]: the message, the
    device index when the call passes one, and the return code whose
    [nvml.ErrorString] is logged. *)
Record LogRecord := { msg : string; index : option Z; err : Return }.

#[global] Instance LogRecord_eq_dec : EqDecision LogRecord.
Proof. solve_decision. Defined.

(** [Log("msg", m, "err", nvml.ErrorString(ret))] *)
Definition log_error (m : string) (ret : Return) : LogRecord :=
  {| msg := m; index := None; err := ret |}.

(** [Log("msg", m, "index", i, "err", nvml.ErrorString(ret))] *)
Definition log_error_at (m : string) (i : Z) (ret : Return) : LogRecord :=
  {| msg := m; index := Some i; err := ret |}.

(** The message logged when a telemetry query fails. *)
Definition query_msg (q : Query) : string :=
  match q with
  | QMemoryInfo => "Unable to get memory info of device"
  | QUtilizationRates => "Unable to get utilization rates of device"
  | QPowerUsage => "Unable to get power usage of device"
  | QTemperature => "Unable to get temperature of device"
  | QFanSpeed => "Unable to get fan speed of device"
  end.

Definition all_queries : list Query :=
  [QMemoryInfo; QUtilizationRates; QPowerUsage; QTemperature; QFanSpeed].

(** Lines 154-218: the records logged by the loop body for index [i]. *)
Definition device_log (nv : Source) (i : Z) : list LogRecord :=
  let '(device, ret) := DeviceGetHandleByIndex nv i in
  if failed ret then [log_error_at "Unable to get device" i ret] else
  let '(minorNumber, ret) := GetMinorNumber nv device in
  if failed ret then [log_error_at "Unable to get minor number of device" i ret] else
  let '(uuid, ret) := GetUUID nv device in
  if failed ret then [log_error_at "Unable to get UUID of device" i ret] else
  let '(name, ret) := GetName nv device in
  if failed ret then [log_error_at "Unable to get name of device" i ret] else
  let lg : list LogRecord := [] in
  let lg :=
    let '(memoryInfo, ret) := GetMemoryInfo nv device in
    if failed ret then lg ++ [log_error_at (query_msg QMemoryInfo) i ret] else lg in
  let lg :=
    let '(utilization, ret) := GetUtilizationRates nv device in
    if failed ret then lg ++ [log_error_at (query_msg QUtilizationRates) i ret] else lg in
  let lg :=
    let '(powerUsage, ret) := GetPowerUsage nv device in
    if failed ret then lg ++ [log_error_at (query_msg QPowerUsage) i ret] else lg in
  let lg :=
    let '(temperature, ret) := GetTemperature nv device TEMPERATURE_GPU in
    if failed ret then lg ++ [log_error_at (query_msg QTemperature) i ret] else lg in
  let '(fanSpeed, ret) := GetFanSpeed nv device in
  if failed ret then lg ++ [log_error_at (query_msg QFanSpeed) i ret] else lg.

(** The records logged by [Exporter.Collect] during one cycle, in order. *)
Definition Collect_log (nv : Source) : list LogRecord :=
  let lg : list LogRecord := [] in
  let '(driverVersion, ret) := SystemGetDriverVersion nv in
  let lg :=
    if failed ret then lg ++ [log_error "Unable to get system driver version" ret]
    else lg in
  let '(count, ret) := DeviceGetCount nv in
  if failed ret then lg ++ [log_error "Unable to get device count" ret] else
  fold_left (λ lg i, lg ++ device_log nv (Z.of_nat i)) (seq 0 (Z.to_nat count)) lg.

(** ** More telemetry sources *)

Module Faults.

(** Two indices resolve to devices that report the same minor number, UUID
    and name, with different readings; the second has no fan sensor. *)
Definition same_identity : Source :=
  {| SystemGetDriverVersion := ("535.104", SUCCESS);
     DeviceGetCount := (2, SUCCESS);
     DeviceGetHandleByIndex := λ i, (100 + i, SUCCESS);
     GetMinorNumber := λ d, (0, SUCCESS);
     GetUUID := λ d, ("GPU-A", SUCCESS);
     GetName := λ d, ("X", SUCCESS);
     GetMemoryInfo := λ d, ({| Total := 1000; Free := 0; Used := d |}, SUCCESS);
     GetUtilizationRates := λ d, ({| Gpu := d - 50; Memory_ := 10 |}, SUCCESS);
     GetPowerUsage := λ d, (5000 + d, SUCCESS);
     GetTemperature := λ d s, (d - 40, SUCCESS);
     GetFanSpeed := λ d, if d =? 100 then (30, SUCCESS) else (0, Examples.ERROR_NOT_SUPPORTED) |}.

(** One device with more memory than a 53-bit significand can count. *)
Definition huge_memory : Source :=
  {| SystemGetDriverVersion := ("535.104", SUCCESS);
     DeviceGetCount := (1, SUCCESS);
     DeviceGetHandleByIndex := λ i, (100 + i, SUCCESS);
     GetMinorNumber := λ d, (0, SUCCESS);
     GetUUID := λ d, ("GPU-A", SUCCESS);
     GetName := λ d, ("X", SUCCESS);
     GetMemoryInfo :=
       λ d, ({| Total := 2 ^ 64 - 1; Free := 0; Used := 2 ^ 53 + 1 |}, SUCCESS);
     GetUtilizationRates := λ d, ({| Gpu := 50; Memory_ := 10 |}, SUCCESS);
     GetPowerUsage := λ d, (5000, SUCCESS);
     GetTemperature := λ d s, (60, SUCCESS);
     GetFanSpeed := λ d, (30, SUCCESS) |}.

(** The library reports no device. *)
Definition no_device : Source := with_count (0, SUCCESS) Examples.two_devices.

End Faults.

(** ** Label values the client accepts *)

(** The byte [c] lies between [lo] and [hi]. *)
Definition in_range (lo hi : N) (c : ascii) : bool :=
  ((lo <=? N_of_ascii c) && (N_of_ascii c <=? hi))%N.

(** [utf8.ValidString]: the string is a sequence of well-formed UTF-8
    encodings (no stray continuation byte, no truncated or overlong encoding,
    no surrogate, nothing above U+10FFFF). *)
Fixpoint ValidString (s : string) : bool :=
  match s with
  | EmptyString => true
  | String c0 s1 =>
      if in_range 0x00 0x7F c0 then ValidString s1
      else
        match s1 with
        | EmptyString => false
        | String c1 s2 =>
            if in_range 0xC2 0xDF c0 then in_range 0x80 0xBF c1 && ValidString s2
            else
              match s2 with
              | EmptyString => false
              | String c2 s3 =>
                  if in_range 0xE0 0xEF c0 then
                    in_range (if in_range 0xE0 0xE0 c0 then 0xA0 else 0x80)
                             (if in_range 0xED 0xED c0 then 0x9F else 0xBF) c1 &&
                    in_range 0x80 0xBF c2 && ValidString s3
                  else
                    match s3 with
                    | EmptyString => false
                    | String c3 s4 =>
                        in_range 0xF0 0xF4 c0 &&
                        in_range (if in_range 0xF0 0xF0 c0 then 0x90 else 0x80)
                                 (if in_range 0xF4 0xF4 c0 then 0x8F else 0xBF) c1 &&
                        in_range 0x80 0xBF c2 && in_range 0x80 0xBF c3 &&
                        ValidString s4
                    end
              end
        end
  end.

(** The client's [validateLabelValues]: as many values as the descriptor has
    labels, each of them valid UTF-8.  [MustNewConstMetric] and
    [WithLabelValues] panic when it fails. *)
Definition validateLabelValues (vals : list string) (expectedNumberOfValues : nat) : bool :=
  bool_decide (length vals = expectedNumberOfValues) && forallb ValidString vals.

(** The label strings a cycle hands to the client are valid UTF-8: the driver
    version when its query succeeds, and the UUID and the name of every
    identified device below the count.  (The third label value of a device is
    a decimal numeral.)  [Collect] and [Collect_log] describe the cycles of
    such sources; on the others the client panics, see [Collect_checked]. *)
Definition labels_valid (nv : Source) : Prop :=
  ((SystemGetDriverVersion nv).2 = SUCCESS →
   ValidString (SystemGetDriverVersion nv).1 = true) ∧
  ∀ i d l, (DeviceGetCount nv).2 = SUCCESS → 0 ≤ i < (DeviceGetCount nv).1 →
           identify nv i = Some (d, l) →
           ValidString l.1.2 = true ∧ ValidString l.2 = true.

(** ** The cycle, with the panics of the client *)

(** [prometheus.MustNewConstMetric], [None] when it panics. *)
Definition MustNewConstMetric_checked (d : Desc) (v : Z) (lvs : list string) :
    option Metric :=
  if validateLabelValues lvs (length (variableLabels d))
  then Some (MustNewConstMetric d v lvs) else None.

(** [vec.WithLabelValues(minor, uuid, name).Set(x)] on vector [k], [None] when
    [WithLabelValues] panics. *)
Definition WithLabelValues_Set_checked (k : Kind) (lvs : LabelValues) (x : Z)
    (e : Exporter) : option Exporter :=
  let '(minor, uuid, name) := lvs in
  if validateLabelValues [minor; uuid; name] (length (variableLabels (vec_desc k)))
  then Some (set_vec k (WithLabelValues_Set lvs x) e) else None.

(** Lines 154-218 on the exporter and the log; [None] when the body panics. *)
Definition device_body_checked (nv : Source) (i : Z) (s : Exporter * list LogRecord) :
    option (Exporter * list LogRecord) :=
  let '(e, lg) := s in
  let '(device, ret) := DeviceGetHandleByIndex nv i in
  if failed ret then Some (e, lg ++ [log_error_at "Unable to get device" i ret]) else
  let '(minorNumber, ret) := GetMinorNumber nv device in
  if failed ret
  then Some (e, lg ++ [log_error_at "Unable to get minor number of device" i ret]) else
  let minor := Itoa minorNumber in
  let '(uuid, ret) := GetUUID nv device in
  if failed ret then Some (e, lg ++ [log_error_at "Unable to get UUID of device" i ret]) else
  let '(name, ret) := GetName nv device in
  if failed ret then Some (e, lg ++ [log_error_at "Unable to get name of device" i ret]) else
  s ← (let '(memoryInfo, ret) := GetMemoryInfo nv device in
       if failed ret then Some (e, lg ++ [log_error_at (query_msg QMemoryInfo) i ret])
       else
         e ← WithLabelValues_Set_checked UsedMemory (minor, uuid, name)
               (float64 (Used memoryInfo)) e;
         e ← WithLabelValues_Set_checked TotalMemory (minor, uuid, name)
               (float64 (Total memoryInfo)) e;
         Some (e, lg));
  s ← (let '(e, lg) := s in
       let '(utilization, ret) := GetUtilizationRates nv device in
       if failed ret then Some (e, lg ++ [log_error_at (query_msg QUtilizationRates) i ret])
       else
         e ← WithLabelValues_Set_checked DutyCycle (minor, uuid, name)
               (float64 (Gpu utilization)) e;
         Some (e, lg));
  s ← (let '(e, lg) := s in
       let '(powerUsage, ret) := GetPowerUsage nv device in
       if failed ret then Some (e, lg ++ [log_error_at (query_msg QPowerUsage) i ret])
       else
         e ← WithLabelValues_Set_checked PowerUsage (minor, uuid, name)
               (float64 powerUsage) e;
         Some (e, lg));
  s ← (let '(e, lg) := s in
       let '(temperature, ret) := GetTemperature nv device TEMPERATURE_GPU in
       if failed ret then Some (e, lg ++ [log_error_at (query_msg QTemperature) i ret])
       else
         e ← WithLabelValues_Set_checked Temperature (minor, uuid, name)
               (float64 temperature) e;
         Some (e, lg));
  let '(e, lg) := s in
  let '(fanSpeed, ret) := GetFanSpeed nv device in
  if failed ret then Some (e, lg ++ [log_error_at (query_msg QFanSpeed) i ret])
  else
    e ← WithLabelValues_Set_checked FanSpeed (minor, uuid, name) (float64 fanSpeed) e;
    Some (e, lg).

(** The loop over the indices [idxs]; it stops at the first panic. *)
Fixpoint device_loop_checked (nv : Source) (idxs : list nat)
    (s : Exporter * list LogRecord) : option (Exporter * list LogRecord) :=
  match idxs with
  | [] => Some s
  | i :: idxs =>
      s ← device_body_checked nv (Z.of_nat i) s;
      device_loop_checked nv idxs s
  end.

(** [Exporter.Collect] with the panics of the client: the exporter, the stream
    and the log of a cycle that returns, [None] for a cycle that panics. *)
Definition Collect_checked (o : MapOrder) (nv : Source) (e : Exporter) :
    option (Exporter * list Metric * list LogRecord) :=
  let e := reset_vecs e in
  let ch : list Metric := [] in
  let lg : list LogRecord := [] in
  let '(driverVersion, ret) := SystemGetDriverVersion nv in
  s ← (if failed ret
       then Some (ch, lg ++ [log_error "Unable to get system driver version" ret])
       else
         m ← MustNewConstMetric_checked gpuInfo 1 [driverVersion];
         Some (ch ++ [m], lg));
  let '(ch, lg) := s in
  let '(count, ret) := DeviceGetCount nv in
  if failed ret then Some (e, ch, lg ++ [log_error "Unable to get device count" ret]) else
  let e := numDevices_Set (float64 count) e in
  let ch := ch ++ [numDevices_metric e] in
  s ← device_loop_checked nv (seq 0 (Z.to_nat count)) (e, lg);
  let '(e, lg) := s in
  Some (e, ch ++ collect_vecs o e, lg).

(** ** Sources with strings that are not UTF-8 *)

Module Invalid.

(** The bytes [X] and [0xFF]: not a UTF-8 encoding. *)
Definition bad_name : string := String "X" (String (ascii_of_N 255) EmptyString).

(** The bytes of [535] followed by [0xFF]. *)
Definition bad_version : string :=
  String "5" (String "3" (String "5" (String (ascii_of_N 255) EmptyString))).

(** The driver version is not valid UTF-8 and its query succeeds. *)
Definition bad_driver_version : Source :=
  with_driver (bad_version, SUCCESS) Examples.two_devices.

(** The name of the first device is not valid UTF-8. *)
Definition bad_device_name : Source :=
  {| SystemGetDriverVersion := ("535.104", SUCCESS);
     DeviceGetCount := (2, SUCCESS);
     DeviceGetHandleByIndex := λ i, (100 + i, SUCCESS);
     GetMinorNumber := λ d, (d - 100, SUCCESS);
     GetUUID := λ d, (if d =? 100 then "GPU-A" else "GPU-B", SUCCESS);
     GetName := λ d, (if d =? 100 then bad_name else "X", SUCCESS);
     GetMemoryInfo := λ d, ({| Total := 1000; Free := 900; Used := 100 |}, SUCCESS);
     GetUtilizationRates := λ d, ({| Gpu := 50; Memory_ := 10 |}, SUCCESS);
     GetPowerUsage := λ d, (5000, SUCCESS);
     GetTemperature := λ d s, (60, SUCCESS);
     GetFanSpeed := λ d, if d =? 100 then (30, SUCCESS) else (0, Examples.ERROR_NOT_SUPPORTED) |}.

End Invalid.

(** ** The loop body, vector by vector *)

Lemma failed_false (ret : Return) : failed ret = false ↔ ret = SUCCESS.
Proof.
  unfold failed. rewrite negb_false_iff. apply Z.eqb_eq.
Qed.

Lemma failed_true (ret : Return) : failed ret = true ↔ ret ≠ SUCCESS.
Proof.
  unfold failed. rewrite negb_true_iff. apply Z.eqb_neq.
Qed.

Lemma vec_set_vec (k k' : Kind) (f : GaugeVec → GaugeVec) (e : Exporter) :
  vec k (set_vec k' f e) = if decide (k = k') then f (vec k e) else vec k e.
Proof. by destruct k, k'. Qed.

Lemma numDevices_set_vec (k : Kind) (f : GaugeVec → GaugeVec) (e : Exporter) :
  numDevices (set_vec k f e) = numDevices e.
Proof. by destruct k. Qed.

Lemma vec_reset_vecs (k : Kind) (e : Exporter) : vec k (reset_vecs e) = ∅.
Proof. by destruct k. Qed.

Lemma numDevices_reset_vecs (e : Exporter) : numDevices (reset_vecs e) = numDevices e.
Proof. done. Qed.

(** A device that is not identified leaves the exporter as it is. *)
Lemma device_body_skip (nv : Source) (i : Z) (e : Exporter) :
  identify nv i = None → device_body nv i e = e.
Proof.
  unfold identify, device_body.
  destruct (DeviceGetHandleByIndex nv i) as [d r0].
  destruct (GetMinorNumber nv d) as [mn r1].
  destruct (GetUUID nv d) as [u r2].
  destruct (GetName nv d) as [nm r3].
  by destruct (failed r0), (failed r1), (failed r2), (failed r3).
Qed.

(** An identified device writes, in each vector, the value of the field when
    the query that feeds the vector succeeded, and nothing otherwise. *)
Lemma vec_device_body (nv : Source) (i : Z) (e : Exporter) (k : Kind) :
  vec k (device_body nv i e) =
    match identify nv i with
    | Some (d, l) =>
        match field nv d k with
        | Some x => <[l := x]> (vec k e)
        | None => vec k e
        end
    | None => vec k e
    end.
Proof.
  unfold identify, device_body, field, query_ret, raw_field, WithLabelValues_Set.
  destruct (DeviceGetHandleByIndex nv i) as [d r0].
  destruct (GetMinorNumber nv d) as [mn r1].
  destruct (GetUUID nv d) as [u r2].
  destruct (GetName nv d) as [nm r3].
  destruct (failed r0), (failed r1), (failed r2), (failed r3); simpl; try done.
  destruct (GetMemoryInfo nv d) as [mi r4].
  destruct (GetUtilizationRates nv d) as [ut r5].
  destruct (GetPowerUsage nv d) as [pu r6].
  destruct (GetTemperature nv d TEMPERATURE_GPU) as [te r7].
  destruct (GetFanSpeed nv d) as [fs r8].
  by destruct k; simpl;
    destruct (failed r4), (failed r5), (failed r6), (failed r7), (failed r8).
Qed.

Lemma numDevices_device_body (nv : Source) (i : Z) (e : Exporter) :
  numDevices (device_body nv i e) = numDevices e.
Proof.
  unfold device_body.
  destruct (DeviceGetHandleByIndex nv i) as [d r0].
  destruct (GetMinorNumber nv d) as [mn r1].
  destruct (GetUUID nv d) as [u r2].
  destruct (GetName nv d) as [nm r3].
  destruct (failed r0), (failed r1), (failed r2), (failed r3); simpl; try done.
  destruct (GetMemoryInfo nv d) as [mi r4].
  destruct (GetUtilizationRates nv d) as [ut r5].
  destruct (GetPowerUsage nv d) as [pu r6].
  destruct (GetTemperature nv d TEMPERATURE_GPU) as [te r7].
  destruct (GetFanSpeed nv d) as [fs r8].
  by destruct (failed r4), (failed r5), (failed r6), (failed r7), (failed r8).
Qed.

(** ** The loop *)

Lemma device_loop_S (nv : Source) (n : nat) (e : Exporter) :
  device_loop nv (Z.of_nat (S n)) e =
    device_body nv (Z.of_nat n) (device_loop nv (Z.of_nat n) e).
Proof.
  unfold device_loop. rewrite !Nat2Z.id, seq_S, fold_left_app. done.
Qed.

Lemma device_loop_nonpos (nv : Source) (n : Z) (e : Exporter) :
  n ≤ 0 → device_loop nv n e = e.
Proof.
  intros Hn. unfold device_loop.
  replace (Z.to_nat n) with 0%nat by lia. done.
Qed.

Lemma device_loop_to_nat (nv : Source) (n : Z) (e : Exporter) :
  device_loop nv n e = device_loop nv (Z.of_nat (Z.to_nat n)) e.
Proof. unfold device_loop. by rewrite Nat2Z.id. Qed.

Lemma numDevices_device_loop (nv : Source) (n : Z) (e : Exporter) :
  numDevices (device_loop nv n e) = numDevices e.
Proof.
  rewrite device_loop_to_nat.
  induction (Z.to_nat n) as [|m IH]; [done|].
  by rewrite device_loop_S, numDevices_device_body.
Qed.

(** After the loop a vector holds, for each label tuple, the last value
    written for it, or what it held before the loop. *)
Lemma lookup_device_loop (nv : Source) (n : nat) (e : Exporter) (k : Kind)
    (l : LabelValues) :
  vec k (device_loop nv (Z.of_nat n) e) !! l =
    match written nv k l n with
    | Some x => Some x
    | None => vec k e !! l
    end.
Proof.
  induction n as [|n IH]; [done|].
  rewrite device_loop_S, vec_device_body. simpl written.
  destruct (identify nv (Z.of_nat n)) as [[d l']|]; [|done].
  destruct (field nv d k) as [x|].
  - rewrite lookup_insert. by repeat case_decide.
  - by case_decide.
Qed.

(** A value was written for [l] exactly when some identified device with
    these label values answered the query. *)
Lemma written_is_Some (nv : Source) (k : Kind) (l : LabelValues) (n : nat) :
  is_Some (written nv k l n) ↔
    ∃ i d, (i < n)%nat ∧ identify nv (Z.of_nat i) = Some (d, l) ∧ is_Some (field nv d k).
Proof.
  induction n as [|n IH]; simpl.
  - split; [by intros [? ?]|]. intros (i & ? & ? & _). lia.
  - split.
    + destruct (identify nv (Z.of_nat n)) as [[d l']|] eqn:Hid.
      * case_decide as Hl; [subst l'; destruct (field nv d k) as [x|] eqn:Hf|].
        -- intros _. exists n, d. rewrite Hf. eauto with lia.
        -- intros (i & d' & ? & ? & ?)%IH. exists i, d'. eauto with lia.
        -- intros (i & d' & ? & ? & ?)%IH. exists i, d'. eauto with lia.
      * intros (i & d' & ? & ? & ?)%IH. exists i, d'. eauto with lia.
    + intros (i & d & Hi & Hid & Hf).
      destruct (decide (i = n)) as [->|Hne].
      * rewrite Hid. rewrite decide_True by done.
        destruct Hf as [x ->]. eauto.
      * assert (is_Some (written nv k l n)) as Hw.
        { apply IH. exists i, d. eauto with lia. }
        destruct (identify nv (Z.of_nat n)) as [[d' l']|]; [|done].
        case_decide; [|done]. destruct (field nv d' k); eauto.
Qed.

(** ** The stream of a cycle *)

Lemma vec_desc_inj (k k' : Kind) : vec_desc k = vec_desc k' → k = k'.
Proof. by destruct k, k'. Qed.

Lemma child_metric_inj (k k' : Kind) (l l' : LabelValues) (x x' : Z) :
  child_metric k (l, x) = child_metric k' (l', x') → k = k' ∧ l = l' ∧ x = x'.
Proof.
  destruct l as [[mn u] nm], l' as [[mn' u'] nm']. unfold child_metric.
  intros [= Hd%(f_equal (λ s, {| fqName := s; variableLabels := deviceLabels |})) -> -> -> ->].
  split; [|done]. by apply vec_desc_inj.
Qed.

Lemma desc_child_metric (k : Kind) (c : LabelValues * Z) :
  desc (child_metric k c) = vec_desc k.
Proof. by destruct c as [[[mn u] nm] x]. Qed.

Lemma elem_of_vec_Collect (o : MapOrder) (k : Kind) (e : Exporter) (m : Metric) :
  m ∈ vec_Collect o k e ↔ ∃ l x, m = child_metric k (l, x) ∧ vec k e !! l = Some x.
Proof.
  unfold vec_Collect. rewrite list_elem_of_fmap. split.
  - intros ([l x] & -> & Hin). exists l, x. split; [done|].
    rewrite range_perm in Hin. by apply elem_of_map_to_list in Hin.
  - intros (l & x & -> & Hl). exists (l, x). split; [done|].
    rewrite range_perm. by apply elem_of_map_to_list.
Qed.

Lemma elem_of_collect_vecs (o : MapOrder) (e : Exporter) (m : Metric) :
  m ∈ collect_vecs o e ↔ ∃ k l x, m = child_metric k (l, x) ∧ vec k e !! l = Some x.
Proof.
  unfold collect_vecs. rewrite !elem_of_app, !elem_of_vec_Collect. split.
  - intros H. repeat destruct H as [H|H]; destruct H as (l & x & ? & ?); eauto.
  - intros (k & l & x & ? & ?). destruct k; eauto 10.
Qed.

Lemma Collect_aborted (o : MapOrder) (nv : Source) (e : Exporter) :
  (DeviceGetCount nv).2 ≠ SUCCESS →
  Collect o nv e = (reset_vecs e, driver_info nv).
Proof.
  intros Hc%failed_true. unfold Collect, driver_info.
  destruct (SystemGetDriverVersion nv) as [dv r], (DeviceGetCount nv) as [n r'].
  simpl in *. rewrite Hc. by destruct (failed r).
Qed.

Lemma Collect_completed (o : MapOrder) (nv : Source) (e : Exporter) (n : Z) :
  DeviceGetCount nv = (n, SUCCESS) →
  Collect o nv e =
    (after_loop nv n e,
     driver_info nv ++ [numDevices_metric (numDevices_Set (float64 n) (reset_vecs e))] ++
     collect_vecs o (after_loop nv n e)).
Proof.
  intros Hc. unfold Collect, driver_info, after_loop. rewrite Hc.
  destruct (SystemGetDriverVersion nv) as [dv r]. simpl.
  destruct (failed r); simpl; by rewrite <- ?app_assoc.
Qed.

Lemma lookup_after_loop (nv : Source) (n : Z) (e : Exporter) (k : Kind) (l : LabelValues) :
  vec k (after_loop nv n e) !! l = written nv k l (Z.to_nat n).
Proof.
  unfold after_loop. rewrite device_loop_to_nat, lookup_device_loop.
  destruct (written nv k l (Z.to_nat n)); [done|].
  by destruct k.
Qed.

Lemma numDevices_after_loop (nv : Source) (n : Z) (e : Exporter) :
  numDevices (after_loop nv n e) = float64 n.
Proof. unfold after_loop. by rewrite numDevices_device_loop. Qed.

Lemma elem_of_driver_info (nv : Source) (m : Metric) :
  m ∈ driver_info nv ↔
    (SystemGetDriverVersion nv).2 = SUCCESS ∧
    m = {| desc := gpuInfo; labelValues := [(SystemGetDriverVersion nv).1]; value := 1 |}.
Proof.
  unfold driver_info.
  destruct (failed (SystemGetDriverVersion nv).2) eqn:Hf.
  - apply failed_true in Hf. rewrite elem_of_nil. naive_solver.
  - apply failed_false in Hf. rewrite list_elem_of_singleton. naive_solver.
Qed.

(** Every metric of a stream, by where it comes from. *)
Lemma elem_of_Collect (o : MapOrder) (nv : Source) (e : Exporter) (m : Metric) :
  m ∈ (Collect o nv e).2 ↔
    m ∈ driver_info nv ∨
    (DeviceGetCount nv).2 = SUCCESS ∧
    (m = {| desc := numDevices_desc; labelValues := [];
            value := float64 (DeviceGetCount nv).1 |} ∨
     ∃ k l x, m = child_metric k (l, x) ∧
              written nv k l (Z.to_nat (DeviceGetCount nv).1) = Some x).
Proof.
  destruct (decide ((DeviceGetCount nv).2 = SUCCESS)) as [Hc|Hc].
  - destruct (DeviceGetCount nv) as [n r] eqn:Hn. simpl in *. subst r.
    rewrite (Collect_completed _ _ _ n) by done. simpl.
    rewrite elem_of_app, elem_of_cons, elem_of_collect_vecs.
    setoid_rewrite lookup_after_loop. unfold numDevices_metric. simpl.
    naive_solver.
  - rewrite Collect_aborted by done. simpl. naive_solver.
Qed.

Lemma present_Collect (o : MapOrder) (nv : Source) (e : Exporter) (k : Kind)
    (l : LabelValues) :
  present k l (Collect o nv e).2 ↔
    (DeviceGetCount nv).2 = SUCCESS ∧
    is_Some (written nv k l (Z.to_nat (DeviceGetCount nv).1)).
Proof.
  unfold present. setoid_rewrite elem_of_Collect.
  setoid_rewrite elem_of_driver_info. split.
  - intros (x & [[_ Hm]|[Hc [Hm|(k' & l' & x' & Hm & Hw)]]]).
    + apply (f_equal desc) in Hm. rewrite desc_child_metric in Hm. by destruct k.
    + apply (f_equal desc) in Hm. rewrite desc_child_metric in Hm. by destruct k.
    + apply child_metric_inj in Hm as (-> & -> & ->). eauto.
  - intros (Hc & x & Hw). exists x. right. split; [done|]. right. eauto.
Qed.

(** ** Identification, in terms of the return codes *)

Lemma identify_Some (nv : Source) (i : Z) (d : Device) (l : LabelValues) :
  identify nv i = Some (d, l) ↔
    DeviceGetHandleByIndex nv i = (d, SUCCESS) ∧
    (GetMinorNumber nv d).2 = SUCCESS ∧
    (GetUUID nv d).2 = SUCCESS ∧
    (GetName nv d).2 = SUCCESS ∧
    l = (Itoa (GetMinorNumber nv d).1, (GetUUID nv d).1, (GetName nv d).1).
Proof.
  unfold identify.
  destruct (DeviceGetHandleByIndex nv i) as [d' r0].
  destruct (GetMinorNumber nv d') as [mn r1] eqn:Hmn.
  destruct (GetUUID nv d') as [u r2] eqn:Hu.
  destruct (GetName nv d') as [nm r3] eqn:Hnm.
  destruct (failed r0) eqn:H0, (failed r1) eqn:H1, (failed r2) eqn:H2,
    (failed r3) eqn:H3; simpl;
    rewrite ?failed_true, ?failed_false in *;
    (split; [intros [= <- <-] || intros [=] | intros ([= <- ->] & ? & ? & ? & ->)]);
    rewrite ?Hmn, ?Hu, ?Hnm in *; simpl in *; subst; done.
Qed.

Lemma identify_None (nv : Source) (i : Z) :
  identify nv i = None ↔ identity_failure nv i.
Proof.
  unfold identify, identity_failure.
  destruct (DeviceGetHandleByIndex nv i) as [d r0]. simpl.
  destruct (GetMinorNumber nv d) as [mn r1].
  destruct (GetUUID nv d) as [u r2].
  destruct (GetName nv d) as [nm r3]. simpl.
  destruct (failed r0) eqn:H0, (failed r1) eqn:H1, (failed r2) eqn:H2,
    (failed r3) eqn:H3; simpl;
    rewrite ?failed_true, ?failed_false in *; naive_solver.
Qed.

(** The label values are a function of the handle. *)
Lemma identify_labels (nv : Source) (i j : Z) (d : Device) (l l' : LabelValues) :
  identify nv i = Some (d, l) → identify nv j = Some (d, l') → l = l'.
Proof.
  rewrite !identify_Some. by intros (_ & _ & _ & _ & ->) (_ & _ & _ & _ & ->).
Qed.

Lemma field_is_Some (nv : Source) (d : Device) (k : Kind) :
  is_Some (field nv d k) ↔ query_ret nv d (query_of k) = SUCCESS.
Proof.
  unfold field. destruct (failed _) eqn:Hf.
  - apply failed_true in Hf. split; [by intros [? ?]|done].
  - apply failed_false in Hf. split; eauto.
Qed.

Lemma field_Some (nv : Source) (d : Device) (k : Kind) (x : Z) :
  field nv d k = Some x → x = float64 (raw_field nv d k).
Proof. unfold field. destruct (failed _); congruence. Qed.

(** A series is in the stream exactly when the count was obtained and some
    identified device with these label values answered the feeding query. *)
Lemma present_iff (o : MapOrder) (nv : Source) (e : Exporter) (k : Kind)
    (l : LabelValues) :
  present k l (Collect o nv e).2 ↔
    (DeviceGetCount nv).2 = SUCCESS ∧
    ∃ i d, 0 ≤ i < (DeviceGetCount nv).1 ∧ identify nv i = Some (d, l) ∧
           query_ret nv d (query_of k) = SUCCESS.
Proof.
  rewrite present_Collect, written_is_Some.
  setoid_rewrite field_is_Some. split.
  - intros (Hc & i & d & Hi & Hid & Hq). split; [done|].
    exists (Z.of_nat i), d. split; [lia|done].
  - intros (Hc & i & d & Hi & Hid & Hq). split; [done|].
    exists (Z.to_nat i), d. rewrite Z2Nat.id by lia. split; [lia|done].
Qed.

(** ** Sources with valid label strings *)

Ltac labels_valid_by_cases :=
  split; [intros _; by vm_compute|];
  let i := fresh "i" in let d := fresh "d" in let l := fresh "l" in
  let Hi := fresh "Hi" in let Hid := fresh "Hid" in
  intros i d l _ Hi Hid; simpl in Hi;
  assert (i = 0 ∨ i = 1 ∨ i = 2) as [->|[->| ->]] by lia;
  try lia; vm_compute in Hid; try discriminate;
  injection Hid as <- <-; by vm_compute.

(** The field answers of a device play no part in the validity of the labels. *)
Lemma labels_valid_with_fields (d : Device) (a : FieldAnswers) (nv : Source) :
  labels_valid (with_fields d a nv) ↔ labels_valid nv.
Proof. done. Qed.

(** A source with valid device labels stays valid under a valid driver version. *)
Lemma labels_valid_with_driver (a : string * Return) (nv : Source) :
  (a.2 = SUCCESS → ValidString a.1 = true) → labels_valid nv →
  labels_valid (with_driver a nv).
Proof. intros Ha [_ Hdev]. by split. Qed.

(** ** Stale series do not survive a cycle *)

(** C1. Every device-scoped metric of a cycle's stream carries the label
    values of a device whose handle and three identity fields were resolved in
    that same cycle, at an index below the count the cycle obtained.  This
    holds whatever the vectors held before the cycle (they are reset before any
    device is enumerated), so a label tuple recorded by an earlier cycle is not
    emitted unless the device is identified again. *)
Theorem C1_emitted_labels_identified_this_cycle
    (o : MapOrder) (nv : Source) (e : Exporter) (m : Metric) :
  m ∈ (Collect o nv e).2 → device_scoped m →
  ∃ k l x i d,
    m = child_metric k (l, x) ∧
    (DeviceGetCount nv).2 = SUCCESS ∧
    0 ≤ i < (DeviceGetCount nv).1 ∧
    DeviceGetHandleByIndex nv i = (d, SUCCESS) ∧
    (GetMinorNumber nv d).2 = SUCCESS ∧
    (GetUUID nv d).2 = SUCCESS ∧
    (GetName nv d).2 = SUCCESS ∧
    l = (Itoa (GetMinorNumber nv d).1, (GetUUID nv d).1, (GetName nv d).1).
Proof.
  intros Hin [k0 Hk0].
  apply elem_of_Collect in Hin as [Hin|[Hc [->|(k & l & x & -> & Hw)]]].
  - apply elem_of_driver_info in Hin as [_ ->]. by destruct k0.
  - by destruct k0.
  - assert (present k l (Collect o nv e).2) as Hp.
    { apply present_Collect. eauto. }
    apply present_iff in Hp as (_ & i & d & Hi & Hid & _).
    apply identify_Some in Hid. exists k, l, x, i, d. naive_solver.
Qed.

Lemma C1_witness :
  let e := (Collect order_id Examples.two_devices NewExporter).1 in
  let nv := Examples.one_device in
  let m := child_metric UsedMemory (Examples.dev0, 100) in
  ∃ k l x i d,
    m = child_metric k (l, x) ∧
    (DeviceGetCount nv).2 = SUCCESS ∧
    0 ≤ i < (DeviceGetCount nv).1 ∧
    DeviceGetHandleByIndex nv i = (d, SUCCESS) ∧
    (GetMinorNumber nv d).2 = SUCCESS ∧
    (GetUUID nv d).2 = SUCCESS ∧
    (GetName nv d).2 = SUCCESS ∧
    l = (Itoa (GetMinorNumber nv d).1, (GetUUID nv d).1, (GetName nv d).1).
Proof.
  intros e nv m.
  apply (C1_emitted_labels_identified_this_cycle order_id nv e m); compute_done.
Defined.

(** The device removed between two cycles: its series were in the vectors
    after the first cycle and are not in the stream of the second. *)
Example removed_device_disappears :
  let e := (Collect order_id Examples.two_devices NewExporter).1 in
  vec UsedMemory e !! Examples.dev1 = Some 100 ∧
  ∀ k, ¬ present k Examples.dev1 (Collect order_id Examples.one_device e).2.
Proof.
  intros e. split; [by vm_compute|].
  intros k Hp. apply present_iff in Hp as (_ & i & d & Hi & Hid & _).
  simpl in Hi. assert (i = 0) as -> by lia. by vm_compute in Hid.
Qed.

(** ** Devices that cannot be identified *)

Lemma fold_left_filter_noop {A B : Type} (f : A → B → A) (P : B → Prop)
    `{∀ x, Decision (P x)} (l : list B) (a : A) :
  (∀ x a', ¬ P x → f a' x = a') →
  fold_left f l a = fold_left f (filter P l) a.
Proof.
  intros Hf. revert a. induction l as [|x l IH]; intros a; [done|].
  simpl. destruct (decide (P x)) as [HP|HP].
  - rewrite filter_cons_True by done. simpl. apply IH.
  - rewrite filter_cons_False by done. rewrite Hf by done. apply IH.
Qed.

(** C5. When the handle of the device at index [i], or one of its minor
    number, UUID and name, cannot be resolved, the loop body for [i] leaves
    every vector as it is and the loop goes on with the other indices as if
    [i] were not there; when the label strings of the source are valid UTF-8,
    the device-scoped series of the stream are exactly those of the other
    identified devices whose feeding query succeeded. *)
Theorem C5_unidentified_device_contributes_nothing
    (o : MapOrder) (nv : Source) (e : Exporter) (n i : Z) :
  DeviceGetCount nv = (n, SUCCESS) → 0 ≤ i < n → identity_failure nv i →
  (∀ e', device_body nv i e' = e') ∧
  (∀ e', device_loop nv n e' =
           fold_left (λ e j, device_body nv (Z.of_nat j) e)
             (filter (λ j, Z.of_nat j ≠ i) (seq 0 (Z.to_nat n))) e') ∧
  (labels_valid nv →
   ∀ k l, present k l (Collect o nv e).2 ↔
            ∃ j d, 0 ≤ j < n ∧ j ≠ i ∧ identify nv j = Some (d, l) ∧
                   query_ret nv d (query_of k) = SUCCESS).
Proof.
  intros Hc Hi Hfail%identify_None. split_and!.
  - intros e'. by apply device_body_skip.
  - intros e'. unfold device_loop. apply fold_left_filter_noop.
    intros j e'' Hj. apply dec_stable in Hj. rewrite Hj.
    by apply device_body_skip.
  - intros _ k l. rewrite present_iff, Hc. simpl. split.
    + intros (_ & j & d & Hj & Hid & Hq). exists j, d.
      repeat split; try done; try lia.
      intros Heq. subst j. congruence.
    + intros (j & d & Hj & _ & Hid & Hq). eauto 10.
Qed.

Lemma C5_witness :
  let nv := Examples.uuid_unreadable in
  let e := NewExporter in
  (∀ e', device_body nv 1 e' = e') ∧
  (∀ e', device_loop nv 3 e' =
           fold_left (λ e j, device_body nv (Z.of_nat j) e)
             (filter (λ j, Z.of_nat j ≠ 1) (seq 0 (Z.to_nat 3))) e') ∧
  (∀ k l, present k l (Collect order_id nv e).2 ↔
            ∃ j d, 0 ≤ j < 3 ∧ j ≠ 1 ∧ identify nv j = Some (d, l) ∧
                   query_ret nv d (query_of k) = SUCCESS).
Proof.
  intros nv e.
  destruct (C5_unidentified_device_contributes_nothing order_id nv e 3 1)
    as (Hbody & Hloop & Hstream).
  - reflexivity.
  - lia.
  - right. right. left. by vm_compute.
  - split_and!; [done|done|]. apply Hstream. labels_valid_by_cases.
Defined.

(** The devices on both sides of the unreadable one keep all their series. *)
Example neighbours_of_unreadable_device :
  (Collect order_id Examples.uuid_unreadable NewExporter).2 =
    [ {| desc := gpuInfo; labelValues := ["535.104"]; value := 1 |};
      {| desc := numDevices_desc; labelValues := []; value := 3 |};
      child_metric UsedMemory (Examples.dev2, 100);
      child_metric UsedMemory (Examples.dev0, 100);
      child_metric TotalMemory (Examples.dev2, 1000);
      child_metric TotalMemory (Examples.dev0, 1000);
      child_metric DutyCycle (Examples.dev2, 50);
      child_metric DutyCycle (Examples.dev0, 50);
      child_metric PowerUsage (Examples.dev2, 5000);
      child_metric PowerUsage (Examples.dev0, 5000);
      child_metric Temperature (Examples.dev2, 60);
      child_metric Temperature (Examples.dev0, 60);
      child_metric FanSpeed (Examples.dev2, 30);
      child_metric FanSpeed (Examples.dev0, 30) ].
Proof. by vm_compute. Qed.

(** ** The driver-info metric *)

Lemma Collect_with_driver_fst (o : MapOrder) (a : string * Return) (nv : Source)
    (e : Exporter) :
  (Collect o (with_driver a nv) e).1 = (Collect o nv e).1.
Proof.
  unfold Collect. simpl.
  destruct a as [dv r], (SystemGetDriverVersion nv) as [dv' r'].
  destruct (DeviceGetCount nv) as [n rc]. by destruct (failed rc).
Qed.

Lemma filter_driver_info (nv : Source) :
  filter (λ m, desc m ≠ gpuInfo) (driver_info nv) = [].
Proof.
  unfold driver_info. destruct (failed _); [done|].
  rewrite filter_cons_False; [done|]. simpl. by intros [].
Qed.

Lemma Collect_without_driver_info (o : MapOrder) (nv : Source) (e : Exporter) :
  filter (λ m, desc m ≠ gpuInfo) (Collect o nv e).2 =
    if failed (DeviceGetCount nv).2 then []
    else numDevices_metric (numDevices_Set (float64 (DeviceGetCount nv).1) (reset_vecs e))
         :: filter (λ m, desc m ≠ gpuInfo)
              (collect_vecs o (after_loop nv (DeviceGetCount nv).1 e)).
Proof.
  destruct (failed (DeviceGetCount nv).2) eqn:Hc.
  - apply failed_true in Hc. rewrite Collect_aborted by done.
    apply filter_driver_info.
  - apply failed_false in Hc. destruct (DeviceGetCount nv) as [n r] eqn:Hn.
    simpl in *. subst r. rewrite (Collect_completed _ _ _ n) by done. simpl.
    rewrite filter_app, filter_driver_info. simpl.
    by rewrite filter_cons_True.
Qed.

(** C6. For a source whose label strings are valid UTF-8, the stream holds a
    metric of the [gpu_info] descriptor exactly when the driver-version query
    succeeded; that metric has value 1 and the returned version as its only
    label value.  Whatever the answer to the query (a failure, or a success
    with a valid string), the exporter after the cycle and the rest of the
    stream are the same: a failure of this query does not abort the cycle. *)
Theorem C6_gpu_info_iff_driver_version (o : MapOrder) (nv : Source) (e : Exporter) :
  labels_valid nv →
  (∀ m, m ∈ (Collect o nv e).2 ∧ desc m = gpuInfo ↔
          (SystemGetDriverVersion nv).2 = SUCCESS ∧
          m = {| desc := gpuInfo;
                 labelValues := [(SystemGetDriverVersion nv).1];
                 value := 1 |}) ∧
  (∀ a, (a.2 = SUCCESS → ValidString a.1 = true) →
        (Collect o (with_driver a nv) e).1 = (Collect o nv e).1 ∧
        filter (λ m, desc m ≠ gpuInfo) (Collect o (with_driver a nv) e).2 =
          filter (λ m, desc m ≠ gpuInfo) (Collect o nv e).2).
Proof.
  intros _. split.
  - intros m. rewrite elem_of_Collect, elem_of_driver_info. split.
    + intros [[Hm|[_ [->|(k & l & x & -> & _)]]] Hd]; [done|done|].
      rewrite desc_child_metric in Hd. by destruct k.
    + intros [Hr ->]. eauto.
  - intros a _. split; [apply Collect_with_driver_fst|].
    by rewrite !Collect_without_driver_info.
Qed.

Lemma C6_witness :
  let nv := Examples.two_devices in
  (∀ m, m ∈ (Collect order_id nv NewExporter).2 ∧ desc m = gpuInfo ↔
          (SystemGetDriverVersion nv).2 = SUCCESS ∧
          m = {| desc := gpuInfo;
                 labelValues := [(SystemGetDriverVersion nv).1];
                 value := 1 |}) ∧
  (∀ a, (a.2 = SUCCESS → ValidString a.1 = true) →
        (Collect order_id (with_driver a nv) NewExporter).1 =
          (Collect order_id nv NewExporter).1 ∧
        filter (λ m, desc m ≠ gpuInfo) (Collect order_id (with_driver a nv) NewExporter).2 =
          filter (λ m, desc m ≠ gpuInfo) (Collect order_id nv NewExporter).2).
Proof.
  intros nv.
  apply (C6_gpu_info_iff_driver_version order_id nv NewExporter).
  split; [intros _; by vm_compute|].
  intros i d l _ Hi Hid. simpl in Hi.
  assert (i = 0 ∨ i = 1) as [->| ->] by lia; vm_compute in Hid;
    injection Hid as <- <-; by vm_compute.
Defined.

(** The driver version cannot be read: the metric is missing and the rest of
    the stream is that of [fan_speed_unsupported]. *)
Example driver_version_unreadable :
  (Collect order_id (with_driver (EmptyString, Examples.ERROR_UNKNOWN) Examples.two_devices)
     NewExporter).2 =
    [ {| desc := numDevices_desc; labelValues := []; value := 2 |};
      child_metric UsedMemory (Examples.dev1, 100);
      child_metric UsedMemory (Examples.dev0, 100);
      child_metric TotalMemory (Examples.dev1, 1000);
      child_metric TotalMemory (Examples.dev0, 1000);
      child_metric DutyCycle (Examples.dev1, 50);
      child_metric DutyCycle (Examples.dev0, 50);
      child_metric PowerUsage (Examples.dev1, 5000);
      child_metric PowerUsage (Examples.dev0, 5000);
      child_metric Temperature (Examples.dev1, 60);
      child_metric Temperature (Examples.dev0, 60);
      child_metric FanSpeed (Examples.dev0, 30) ].
Proof. by vm_compute. Qed.

(** ** Two cycles against the same answers *)

Lemma Exporter_eq (e e' : Exporter) :
  numDevices e = numDevices e' → (∀ k, vec k e = vec k e') → e = e'.
Proof.
  intros Hn Hv. destruct e, e'. simpl in *.
  pose proof (Hv UsedMemory). pose proof (Hv TotalMemory).
  pose proof (Hv DutyCycle). pose proof (Hv PowerUsage).
  pose proof (Hv Temperature). pose proof (Hv FanSpeed).
  simpl in *. congruence.
Qed.

(** The exporter after the loop does not depend on the exporter before the
    cycle. *)
Lemma after_loop_fresh (nv : Source) (n : Z) (e e' : Exporter) :
  after_loop nv n e = after_loop nv n e'.
Proof.
  apply Exporter_eq.
  - by rewrite !numDevices_after_loop.
  - intros k. apply map_eq. intros l. by rewrite !lookup_after_loop.
Qed.

Lemma vec_Collect_order (o o' : MapOrder) (k : Kind) (e : Exporter) :
  vec_Collect o k e ≡ₚ vec_Collect o' k e.
Proof. unfold vec_Collect. by rewrite !range_perm. Qed.

Lemma collect_vecs_order (o o' : MapOrder) (e : Exporter) :
  collect_vecs o e ≡ₚ collect_vecs o' e.
Proof.
  unfold collect_vecs.
  repeat (apply Permutation_app; [apply vec_Collect_order|]).
  apply vec_Collect_order.
Qed.

(** C7. Two consecutive cycles that get the same answers to every query send
    the same metrics, up to the order in which the children of a vector are
    enumerated, and leave the exporter in the same state. *)
Theorem C7_same_answers_same_metrics (o1 o2 : MapOrder) (nv : Source) (e : Exporter) :
  let c1 := Collect o1 nv e in
  let c2 := Collect o2 nv c1.1 in
  c1.2 ≡ₚ c2.2 ∧ c2.1 = c1.1.
Proof.
  simpl. destruct (decide ((DeviceGetCount nv).2 = SUCCESS)) as [Hc|Hc].
  - destruct (DeviceGetCount nv) as [n r] eqn:Hn. simpl in Hc. subst r.
    rewrite !(Collect_completed _ _ _ n) by done. simpl.
    rewrite <- (after_loop_fresh nv n e (after_loop nv n e)).
    split; [|done].
    apply Permutation_app; [done|]. apply Permutation_cons; [done|].
    apply collect_vecs_order.
  - rewrite !Collect_aborted by done. simpl. split; [done|].
    by apply Exporter_eq; [|intros []].
Qed.

(** ** The device count *)

Lemma float64_exact (n : Z) : Z.abs n ≤ 2 ^ 53 → float64 n = n.
Proof.
  intros Hn. unfold float64.
  destruct (Z.ltb_spec (Z.abs n) (2 ^ 53)) as [Hlt|Hge]; [done|].
  assert (Z.abs n = 2 ^ 53) as Ha by lia.
  rewrite Ha. destruct (Z.abs_eq_or_opp n) as [Hp|Hp]; rewrite Hp in Ha.
  - by rewrite Ha.
  - assert (n = - 2 ^ 53) as -> by lia. done.
Qed.

(** C8. When the count query succeeds, on a source whose label strings are
    valid UTF-8, the only [num_devices] metric of the stream is the gauge of
    the exporter, and when [Collect] returns that gauge holds the count as it
    was returned, whatever happens to the devices afterwards.  (The count is
    converted with [float64(...)], which is exact up to 2^53; NVML counts
    devices in a C unsigned int.) *)
Theorem C8_num_devices_is_raw_count
    (o : MapOrder) (nv : Source) (e : Exporter) (n : Z) (m : Metric) :
  DeviceGetCount nv = (n, SUCCESS) → Z.abs n ≤ 2 ^ 53 → labels_valid nv →
  (m ∈ (Collect o nv e).2 ∧ desc m = numDevices_desc ↔
     m = numDevices_metric (Collect o nv e).1) ∧
  numDevices (Collect o nv e).1 = n.
Proof.
  intros Hc Hn _.
  assert (numDevices (Collect o nv e).1 = n) as Hgauge.
  { rewrite (Collect_completed _ _ _ n) by done. simpl.
    by rewrite numDevices_after_loop, float64_exact. }
  split; [|done]. unfold numDevices_metric. rewrite Hgauge.
  rewrite elem_of_Collect, elem_of_driver_info, Hc. simpl.
  rewrite float64_exact by done. split.
  - intros [[[_ ->]|[_ [->|(k & l & x & -> & _)]]] Hd]; [done|done|].
    rewrite desc_child_metric in Hd. by destruct k.
  - intros ->. eauto.
Qed.

Lemma C8_witness :
  let nv := Examples.no_handles in
  let m := {| desc := numDevices_desc; labelValues := []; value := 3 |} in
  (m ∈ (Collect order_id nv NewExporter).2 ∧ desc m = numDevices_desc ↔
     m = numDevices_metric (Collect order_id nv NewExporter).1) ∧
  numDevices (Collect order_id nv NewExporter).1 = 3.
Proof.
  intros nv m.
  apply (C8_num_devices_is_raw_count order_id nv NewExporter 3 m).
  - reflexivity.
  - by vm_compute.
  - labels_valid_by_cases.
Defined.

(** Three devices are counted, none is identified, and the gauge says 3. *)
Example count_of_unidentified_devices :
  (Collect order_id Examples.no_handles NewExporter).2 =
    [ {| desc := gpuInfo; labelValues := ["535.104"]; value := 1 |};
      {| desc := numDevices_desc; labelValues := []; value := 3 |} ].
Proof. by vm_compute. Qed.

(** ** Well-formed streams *)

Lemma collect_vecs_bind (o : MapOrder) (e : Exporter) :
  collect_vecs o e = all_kinds ≫= (λ k, vec_Collect o k e).
Proof. unfold collect_vecs. csimpl. by rewrite app_nil_r. Qed.

Lemma NoDup_vec_Collect (o : MapOrder) (k : Kind) (e : Exporter) :
  NoDup (vec_Collect o k e).
Proof.
  unfold vec_Collect. apply NoDup_fmap_2_strong.
  - intros [l x] [l' x'] _ _ Heq. by apply child_metric_inj in Heq as (_ & -> & ->).
  - rewrite range_perm. apply NoDup_map_to_list.
Qed.

Lemma NoDup_collect_vecs (o : MapOrder) (e : Exporter) : NoDup (collect_vecs o e).
Proof.
  rewrite collect_vecs_bind. apply NoDup_bind.
  - intros k k' m _ _ (l & x & -> & _)%elem_of_vec_Collect
      (l' & x' & Heq & _)%elem_of_vec_Collect.
    by apply child_metric_inj in Heq as (-> & _).
  - intros k _. apply NoDup_vec_Collect.
  - compute_done.
Qed.

Lemma NoDup_Collect (o : MapOrder) (nv : Source) (e : Exporter) :
  NoDup (Collect o nv e).2.
Proof.
  assert (NoDup (driver_info nv)) as Hd.
  { unfold driver_info. destruct (failed _); [constructor|apply NoDup_singleton]. }
  destruct (decide ((DeviceGetCount nv).2 = SUCCESS)) as [Hc|Hc].
  - destruct (DeviceGetCount nv) as [n r] eqn:Hn. simpl in Hc. subst r.
    rewrite (Collect_completed _ _ _ n) by done. simpl.
    apply NoDup_app. split_and!; [done| |].
    + intros m [_ ->]%elem_of_driver_info
        [[=]|(k & l & x & Hm & _)%elem_of_collect_vecs]%elem_of_cons.
      apply (f_equal desc) in Hm. rewrite desc_child_metric in Hm. by destruct k.
    + constructor; [|apply NoDup_collect_vecs].
      intros (k & l & x & Hm & _)%elem_of_collect_vecs.
      apply (f_equal desc) in Hm. rewrite desc_child_metric in Hm. by destruct k.
  - by rewrite Collect_aborted.
Qed.

(** Two metrics of one stream with the same name and label values are the
    same metric. *)
Lemma series_inj_Collect (o : MapOrder) (nv : Source) (e : Exporter) (m m' : Metric) :
  m ∈ (Collect o nv e).2 → m' ∈ (Collect o nv e).2 → series m = series m' → m = m'.
Proof.
  rewrite !elem_of_Collect, !elem_of_driver_info.
  intros [[_ ->]|[_ [->|(k & [[mn u] nm] & x & -> & Hw)]]]
    [[_ ->]|[_ [->|(k' & [[mn' u'] nm'] & x' & -> & Hw')]]]; try done;
    try (by destruct k); try (by destruct k').
  unfold series, child_metric. simpl. intros [= Hk <- <- <-].
  assert (k = k') as <- by (by destruct k, k').
  congruence.
Qed.

Lemma Collect_well_formed (o : MapOrder) (nv : Source) (e : Exporter) :
  well_formed (Collect o nv e).2.
Proof.
  split.
  - apply NoDup_fmap_2_strong; [|apply NoDup_Collect].
    intros m m'. apply series_inj_Collect.
  - apply Forall_forall. intros m.
    rewrite elem_of_Collect, elem_of_driver_info.
    by intros [[_ ->]|[_ [->|(k & [[mn u] nm] & x & -> & _)]]].
Qed.

(** ** A cycle without a device count *)

(** C3. On a source whose label strings are valid UTF-8: when the count query
    fails, no device-scoped metric is sent, the vectors are left empty, the
    stream is well formed, it holds nothing but the driver-info metric, and it
    holds that metric exactly when the driver-version query succeeded.  No
    failure of another query ends a cycle early: when the count query succeeds
    the [num_devices] metric is sent, the stream is well formed, and every
    identified device below the count has the series of every query it
    answered, whatever the other queries returned. *)
Theorem C3_count_failure_is_the_only_fatal_one
    (o : MapOrder) (nv : Source) (e : Exporter) :
  labels_valid nv →
  ((DeviceGetCount nv).2 ≠ SUCCESS →
     (∀ m, m ∈ (Collect o nv e).2 → ¬ device_scoped m) ∧
     (∀ k, vec k (Collect o nv e).1 = ∅) ∧
     well_formed (Collect o nv e).2 ∧
     (∀ m, m ∈ (Collect o nv e).2 → desc m = gpuInfo) ∧
     ((∃ m, m ∈ (Collect o nv e).2 ∧ desc m = gpuInfo) ↔
        (SystemGetDriverVersion nv).2 = SUCCESS)) ∧
  ((DeviceGetCount nv).2 = SUCCESS →
     well_formed (Collect o nv e).2 ∧
     (∃ m, m ∈ (Collect o nv e).2 ∧ desc m = numDevices_desc) ∧
     (∀ i d l k, 0 ≤ i < (DeviceGetCount nv).1 →
                 identify nv i = Some (d, l) →
                 query_ret nv d (query_of k) = SUCCESS →
                 present k l (Collect o nv e).2)).
Proof.
  intros _. split; intros Hc.
  - assert (∀ m, m ∈ (Collect o nv e).2 → desc m = gpuInfo) as Honly.
    { intros m. rewrite Collect_aborted by done.
      by intros [_ ->]%elem_of_driver_info. }
    split_and!.
    + intros m Hm%Honly [k Hk]. rewrite Hm in Hk. by destruct k.
    + intros k. rewrite Collect_aborted by done. apply vec_reset_vecs.
    + apply Collect_well_formed.
    + done.
    + rewrite Collect_aborted by done. setoid_rewrite elem_of_driver_info.
      naive_solver.
  - split_and!.
    + apply Collect_well_formed.
    + exists {| desc := numDevices_desc; labelValues := [];
                value := float64 (DeviceGetCount nv).1 |}.
      split; [|done]. apply elem_of_Collect. eauto.
    + intros i d l k Hi Hid Hq. apply present_iff. eauto 10.
Qed.

Lemma C3_witness :
  ((∀ m, m ∈ (Collect order_id Examples.count_fails NewExporter).2 →
         ¬ device_scoped m) ∧
   ((∃ m, m ∈ (Collect order_id Examples.count_fails NewExporter).2 ∧
          desc m = gpuInfo) ↔
      (SystemGetDriverVersion Examples.count_fails).2 = SUCCESS)) ∧
  present Temperature Examples.dev1
    (Collect order_id Examples.two_devices NewExporter).2.
Proof.
  split.
  - destruct (C3_count_failure_is_the_only_fatal_one order_id Examples.count_fails
                NewExporter) as [Hfail _]; [labels_valid_by_cases|].
    destruct Hfail as (Hnone & _ & _ & _ & Hinfo); [by vm_compute|]. done.
  - destruct (C3_count_failure_is_the_only_fatal_one order_id Examples.two_devices
                NewExporter) as [_ Hok]; [labels_valid_by_cases|].
    destruct Hok as (_ & _ & Hseries); [by vm_compute|].
    apply (Hseries 1 101); by vm_compute.
Defined.

(** The streams of a cycle without a count, with and without the driver
    version. *)
Example streams_without_count :
  (Collect order_id Examples.count_fails NewExporter).2 =
    [ {| desc := gpuInfo; labelValues := ["535.104"]; value := 1 |} ] ∧
  (Collect order_id Examples.library_down NewExporter).2 = [].
Proof. by vm_compute. Qed.

(** ** The gauge of the device count *)

(** C10. When the count query fails, no metric of the [num_devices] descriptor
    is sent in that cycle; the gauge itself keeps the value it had. *)
Theorem C10_no_count_no_num_devices (o : MapOrder) (nv : Source) (e : Exporter) :
  (DeviceGetCount nv).2 ≠ SUCCESS →
  (∀ m, m ∈ (Collect o nv e).2 → desc m ≠ numDevices_desc) ∧
  numDevices (Collect o nv e).1 = numDevices e.
Proof.
  intros Hc. rewrite Collect_aborted by done. simpl. split; [|done].
  by intros m [_ ->]%elem_of_driver_info.
Qed.

Lemma C10_witness :
  let e := (Collect order_id Examples.two_devices NewExporter).1 in
  numDevices e = 2 ∧
  (∀ m, m ∈ (Collect order_id Examples.count_fails e).2 → desc m ≠ numDevices_desc) ∧
  numDevices (Collect order_id Examples.count_fails e).1 = numDevices e.
Proof.
  intros e. split; [by vm_compute|].
  apply (C10_no_count_no_num_devices order_id Examples.count_fails e).
  by vm_compute.
Defined.

(** ** The two memory series *)

(** C9. For every label tuple, the [memory_used_bytes] series is in the stream
    exactly when the [memory_total_bytes] series is, and the two vectors hold
    the same label tuples after every cycle.  On a source whose label strings
    are valid UTF-8, each of the two series is there exactly when the count
    was obtained and an identified device with these label values answered
    the memory-info query. *)
Theorem C9_memory_series_together
    (o : MapOrder) (nv : Source) (e : Exporter) (l : LabelValues) :
  (present UsedMemory l (Collect o nv e).2 ↔ present TotalMemory l (Collect o nv e).2) ∧
  (labels_valid nv →
   (present UsedMemory l (Collect o nv e).2 ↔
      (DeviceGetCount nv).2 = SUCCESS ∧
      ∃ i d, 0 ≤ i < (DeviceGetCount nv).1 ∧ identify nv i = Some (d, l) ∧
             (GetMemoryInfo nv d).2 = SUCCESS)) ∧
  (is_Some (usedMemory (Collect o nv e).1 !! l) ↔
     is_Some (totalMemory (Collect o nv e).1 !! l)).
Proof.
  split_and!.
  - by rewrite !present_iff.
  - intros _. by rewrite present_iff.
  - destruct (decide ((DeviceGetCount nv).2 = SUCCESS)) as [Hc|Hc].
    + destruct (DeviceGetCount nv) as [n r] eqn:Hn. simpl in Hc. subst r.
      rewrite (Collect_completed _ _ _ n) by done. simpl.
      change (is_Some (vec UsedMemory (after_loop nv n e) !! l) ↔
              is_Some (vec TotalMemory (after_loop nv n e) !! l)).
      rewrite !lookup_after_loop, !written_is_Some.
      by setoid_rewrite field_is_Some.
    + rewrite Collect_aborted by done. simpl.
      change (is_Some (vec UsedMemory (reset_vecs e) !! l) ↔
              is_Some (vec TotalMemory (reset_vecs e) !! l)).
      by rewrite !vec_reset_vecs.
Qed.

Lemma C9_witness :
  let nv := Examples.two_devices in
  let ch := (Collect order_id nv NewExporter).2 in
  (present UsedMemory Examples.dev1 ch ↔ present TotalMemory Examples.dev1 ch) ∧
  (present UsedMemory Examples.dev1 ch ↔
     (DeviceGetCount nv).2 = SUCCESS ∧
     ∃ i d, 0 ≤ i < (DeviceGetCount nv).1 ∧ identify nv i = Some (d, Examples.dev1) ∧
            (GetMemoryInfo nv d).2 = SUCCESS).
Proof.
  intros nv ch.
  destruct (C9_memory_series_together order_id nv NewExporter Examples.dev1)
    as (Hboth & Hquery & _).
  split; [done|]. apply Hquery. labels_valid_by_cases.
Defined.

(** ** One failing telemetry query *)

Lemma written_Some (nv : Source) (k : Kind) (l : LabelValues) (n : nat) (x : Z) :
  written nv k l n = Some x →
  ∃ i d, (i < n)%nat ∧ identify nv (Z.of_nat i) = Some (d, l) ∧ field nv d k = Some x.
Proof.
  induction n as [|n IH]; simpl; [done|].
  destruct (identify nv (Z.of_nat n)) as [[d l']|] eqn:Hid.
  - case_decide as Hl; [subst l'; destruct (field nv d k) as [y|] eqn:Hf|].
    + intros [= ->]. exists n, d. eauto with lia.
    + intros (i & d' & ? & ? & ?)%IH. exists i, d'. eauto with lia.
    + intros (i & d' & ? & ? & ?)%IH. exists i, d'. eauto with lia.
  - intros (i & d' & ? & ? & ?)%IH. exists i, d'. eauto with lia.
Qed.

Lemma field_with_fields_ne (d d' : Device) (a : FieldAnswers) (nv : Source) (k : Kind) :
  d' ≠ d → field (with_fields d a nv) d' k = field nv d' k.
Proof.
  intros Hne. unfold field, query_ret, raw_field.
  destruct k; simpl; by rewrite decide_False.
Qed.

Lemma identify_with_fields (d : Device) (a : FieldAnswers) (nv : Source) (i : Z) :
  identify (with_fields d a nv) i = identify nv i.
Proof. done. Qed.

(** The answers of device [d] to the telemetry queries do not reach the series
    of any other label tuple. *)
Lemma written_with_fields (d : Device) (a : FieldAnswers) (nv : Source) (i : Z)
    (l l' : LabelValues) (k : Kind) (n : nat) :
  identify nv i = Some (d, l) → l' ≠ l →
  written (with_fields d a nv) k l' n = written nv k l' n.
Proof.
  intros Hid Hne. induction n as [|n IH]; simpl; [done|].
  rewrite identify_with_fields, IH.
  destruct (identify nv (Z.of_nat n)) as [[d' l'']|] eqn:Hid'; [|done].
  case_decide as Hl; [|done]. subst l''.
  rewrite field_with_fields_ne; [done|].
  intros ->. apply Hne. eapply identify_labels; eauto.
Qed.

(** A child of a vector is in the stream exactly when the count was obtained
    and its value is the last one written for its label values. *)
Lemma elem_of_Collect_child (o : MapOrder) (nv : Source) (e : Exporter) (k : Kind)
    (l : LabelValues) (x : Z) :
  child_metric k (l, x) ∈ (Collect o nv e).2 ↔
    (DeviceGetCount nv).2 = SUCCESS ∧
    written nv k l (Z.to_nat (DeviceGetCount nv).1) = Some x.
Proof.
  rewrite elem_of_Collect, elem_of_driver_info. split.
  - intros [[_ Hm]|[Hc [Hm|(k' & l' & x' & Hm & Hw)]]].
    + apply (f_equal desc) in Hm. rewrite desc_child_metric in Hm. by destruct k.
    + apply (f_equal desc) in Hm. rewrite desc_child_metric in Hm. by destruct k.
    + by apply child_metric_inj in Hm as (-> & -> & ->).
  - intros [Hc Hw]. right. split; [done|]. right. eauto.
Qed.

(** C2, as the code has it.  The loop body issues five telemetry queries for
    an identified device: memory info, which feeds both memory series, and
    utilization, power usage, temperature and fan speed, which feed one series
    each.  On a source whose label strings are valid UTF-8, for a device whose
    label values are those of no other device handle
    of the cycle, a series is in the stream exactly when the query that feeds
    it succeeded, and its value is the returned field converted by
    [float64(...)]; so when exactly one query fails, the series fed by that
    query are missing and all the others are there.  The series of any other
    label tuple are the same whatever this device answers. *)
Theorem C2_failed_query_removes_the_series_it_feeds
    (o : MapOrder) (nv : Source) (e : Exporter) (n i : Z) (d : Device)
    (l : LabelValues) :
  DeviceGetCount nv = (n, SUCCESS) → 0 ≤ i < n → identify nv i = Some (d, l) →
  (∀ j d', 0 ≤ j < n → identify nv j = Some (d', l) → d' = d) →
  labels_valid nv →
  (∀ k, present k l (Collect o nv e).2 ↔ query_ret nv d (query_of k) = SUCCESS) ∧
  (∀ k x, child_metric k (l, x) ∈ (Collect o nv e).2 → x = float64 (raw_field nv d k)) ∧
  (∀ q, (∀ q', query_ret nv d q' ≠ SUCCESS ↔ q' = q) →
        ∀ k, present k l (Collect o nv e).2 ↔ query_of k ≠ q) ∧
  (∀ a k l' x, l' ≠ l →
     child_metric k (l', x) ∈ (Collect o nv e).2 ↔
     child_metric k (l', x) ∈ (Collect o (with_fields d a nv) e).2).
Proof.
  intros Hc Hi Hid Huniq _.
  assert (∀ k, present k l (Collect o nv e).2 ↔
               query_ret nv d (query_of k) = SUCCESS) as Hpresent.
  { intros k. rewrite present_iff, Hc. simpl. split.
    - intros (_ & j & d' & Hj & Hid' & Hq). by rewrite <- (Huniq j d').
    - intros Hq. eauto 10. }
  split_and!.
  - done.
  - intros k x [_ Hw]%elem_of_Collect_child.
    rewrite Hc in Hw. simpl in Hw.
    apply written_Some in Hw as (j & d' & Hj & Hid' & Hf).
    rewrite (Huniq (Z.of_nat j) d') in Hf by (done || lia).
    by apply field_Some.
  - intros q Hq k. rewrite Hpresent, <- Hq.
    destruct (decide (query_ret nv d (query_of k) = SUCCESS)); naive_solver.
  - intros a k l' x Hne. rewrite !elem_of_Collect_child.
    by rewrite (written_with_fields d a nv i l l').
Qed.

Lemma C2_witness :
  let nv := Examples.two_devices in
  let ch := (Collect order_id nv NewExporter).2 in
  (∀ k, present k Examples.dev1 ch ↔ query_ret nv 101 (query_of k) = SUCCESS) ∧
  (∀ k x, child_metric k (Examples.dev1, x) ∈ ch → x = float64 (raw_field nv 101 k)) ∧
  (∀ q, (∀ q', query_ret nv 101 q' ≠ SUCCESS ↔ q' = q) →
        ∀ k, present k Examples.dev1 ch ↔ query_of k ≠ q) ∧
  (∀ a k l' x, l' ≠ Examples.dev1 →
     child_metric k (l', x) ∈ ch ↔
     child_metric k (l', x) ∈ (Collect order_id (with_fields 101 a nv) NewExporter).2).
Proof.
  intros nv ch.
  apply (C2_failed_query_removes_the_series_it_feeds order_id nv NewExporter 2 1
           101 Examples.dev1).
  - reflexivity.
  - lia.
  - by vm_compute.
  - intros j d' Hj Hid'.
    assert (j = 0 ∨ j = 1) as [->| ->] by lia; vm_compute in Hid'; congruence.
  - labels_valid_by_cases.
Defined.

(** The stream of Section 8: the fan-speed query of the second device fails,
    its five other series and the six series of the first device are sent. *)
Example fan_speed_unsupported :
  (Collect order_id Examples.two_devices NewExporter).2 =
    [ {| desc := gpuInfo; labelValues := ["535.104"]; value := 1 |};
      {| desc := numDevices_desc; labelValues := []; value := 2 |};
      child_metric UsedMemory (Examples.dev1, 100);
      child_metric UsedMemory (Examples.dev0, 100);
      child_metric TotalMemory (Examples.dev1, 1000);
      child_metric TotalMemory (Examples.dev0, 1000);
      child_metric DutyCycle (Examples.dev1, 50);
      child_metric DutyCycle (Examples.dev0, 50);
      child_metric PowerUsage (Examples.dev1, 5000);
      child_metric PowerUsage (Examples.dev0, 5000);
      child_metric Temperature (Examples.dev1, 60);
      child_metric Temperature (Examples.dev0, 60);
      child_metric FanSpeed (Examples.dev0, 30) ].
Proof. by vm_compute. Qed.

(** When the one failing query is the memory-info query, two of the six series
    of the device are missing, not one: no single series [k0] is the only one
    absent. *)
Lemma C2_memory_query_counterexample :
  let nv := Examples.memory_query_fails in
  let ch := (Collect order_id nv NewExporter).2 in
  DeviceGetCount nv = (1, SUCCESS) ∧
  identify nv 0 = Some (100, Examples.dev0) ∧
  (∀ q, query_ret nv 100 q ≠ SUCCESS ↔ q = QMemoryInfo) ∧
  ch = [ {| desc := gpuInfo; labelValues := ["535.104"]; value := 1 |};
         {| desc := numDevices_desc; labelValues := []; value := 1 |};
         child_metric DutyCycle (Examples.dev0, 50);
         child_metric PowerUsage (Examples.dev0, 5000);
         child_metric Temperature (Examples.dev0, 60);
         child_metric FanSpeed (Examples.dev0, 30) ] ∧
  ¬ present UsedMemory Examples.dev0 ch ∧
  ¬ present TotalMemory Examples.dev0 ch ∧
  ¬ ∃ k0, ∀ k, present k Examples.dev0 ch ↔ k ≠ k0.
Proof.
  intros nv ch.
  assert (∀ k, query_of k = QMemoryInfo → ¬ present k Examples.dev0 ch) as Hno.
  { intros k Hk Hp. apply present_iff in Hp as (_ & j & d & Hj & Hid & Hq).
    simpl in Hj. assert (j = 0) as -> by lia.
    vm_compute in Hid. injection Hid as <-.
    rewrite Hk in Hq. by vm_compute in Hq. }
  split_and!; try done.
  - intros q. by destruct q; vm_compute; split.
  - by apply Hno.
  - by apply Hno.
  - intros [k0 Hk0].
    assert (UsedMemory = k0) as <-.
    { destruct (decide (UsedMemory = k0)) as [|Hne]; [done|].
      apply Hk0 in Hne. by apply Hno in Hne. }
    assert (TotalMemory ≠ UsedMemory) as Hne by done.
    apply Hk0 in Hne. by apply Hno in Hne.
Qed.


(** * Further properties of the exporter *)

(** ** [Describe] and [Collect] agree *)

(** X1. The eight descriptors sent by [Describe] have pairwise different
    names, and every metric sent by [Collect] carries one of them, with as
    many label values as the descriptor has labels. *)
Theorem X1_Collect_uses_described_descriptors
    (o : MapOrder) (nv : Source) (e : Exporter) :
  NoDup (fqName <$> Describe e) ∧
  length (Describe e) = 8%nat ∧
  Forall (λ m, desc m ∈ Describe e ∧
               length (labelValues m) = length (variableLabels (desc m)))
    (Collect o nv e).2.
Proof.
  split_and!; [compute_done|done|].
  apply Forall_forall. intros m.
  rewrite elem_of_Collect, elem_of_driver_info.
  intros [[_ ->]|[_ [->|(k & [[mn u] nm] & x & -> & _)]]].
  - split; [|done]. simpl. set_solver.
  - split; [|done]. simpl. set_solver.
  - rewrite desc_child_metric. split; [|done].
    unfold Describe, vec_Describe. destruct k; set_solver.
Qed.

(** ** A cycle starts afresh *)

(** X2. The stream of a cycle and the children of the six vectors after it do
    not depend on the exporter the cycle started from; of the earlier state
    only the value of the [numDevices] gauge survives, and only when the count
    query fails. *)
Theorem X2_cycle_forgets_previous_state
    (o : MapOrder) (nv : Source) (e e' : Exporter) :
  (Collect o nv e).2 = (Collect o nv e').2 ∧
  (∀ k, vec k (Collect o nv e).1 = vec k (Collect o nv e').1) ∧
  numDevices (Collect o nv e).1 =
    if failed (DeviceGetCount nv).2 then numDevices e
    else float64 (DeviceGetCount nv).1.
Proof.
  destruct (failed (DeviceGetCount nv).2) eqn:Hc.
  - apply failed_true in Hc. rewrite !Collect_aborted by done. simpl.
    split_and!; [done| |done]. intros k. by rewrite !vec_reset_vecs.
  - apply failed_false in Hc. destruct (DeviceGetCount nv) as [n r] eqn:Hn.
    simpl in *. subst r. rewrite !(Collect_completed _ _ _ n) by done. simpl.
    rewrite (after_loop_fresh nv n e e'). split_and!; [done|done|].
    apply numDevices_after_loop.
Qed.

(** ** The last write wins *)

Lemma written_last (nv : Source) (k : Kind) (l : LabelValues) (n : nat) (x : Z) :
  written nv k l n = Some x ↔
    ∃ i d, (i < n)%nat ∧ identify nv (Z.of_nat i) = Some (d, l) ∧
           field nv d k = Some x ∧
           ∀ j d', (i < j < n)%nat → identify nv (Z.of_nat j) = Some (d', l) →
                   field nv d' k = None.
Proof.
  induction n as [|n IH]; simpl.
  { split; [done|]. intros (i & ? & ? & _). lia. }
  assert (∀ i, (i < S n)%nat → i = n ∨ (i < n)%nat) as Hcase by lia.
  split.
  - intros Hw.
    assert (written nv k l n = Some x →
            (∀ d', identify nv (Z.of_nat n) = Some (d', l) → field nv d' k = None) →
            ∃ i d, (i < S n)%nat ∧ identify nv (Z.of_nat i) = Some (d, l) ∧
                   field nv d k = Some x ∧
                   ∀ j d', (i < j < S n)%nat →
                           identify nv (Z.of_nat j) = Some (d', l) →
                           field nv d' k = None) as Hold.
    { intros (i & d & Hi & Hid & Hf & Hlast)%IH Hn. exists i, d.
      split_and!; [lia|done|done|].
      intros j d' Hj Hid'. destruct (Hcase j) as [->|?]; [lia|eauto|].
      apply (Hlast j d'); [lia|done]. }
    destruct (identify nv (Z.of_nat n)) as [[d l']|] eqn:Hid.
    + case_decide as Hl; [subst l'; destruct (field nv d k) as [y|] eqn:Hf|].
      * injection Hw as ->. exists n, d. split_and!; [lia|done|done|]. lia.
      * apply Hold; [done|]. by intros d' [= <-].
      * apply Hold; [done|]. intros d' [= _ ?]. done.
    + by apply Hold.
  - intros (i & d & Hi & Hid & Hf & Hlast).
    destruct (Hcase i Hi) as [->|Hlt].
    + by rewrite Hid, decide_True, Hf.
    + assert (written nv k l n = Some x) as Hw.
      { apply IH. exists i, d. split_and!; [done|done|done|].
        intros j d' Hj. apply Hlast. lia. }
      destruct (identify nv (Z.of_nat n)) as [[d' l']|] eqn:Hid'; [|done].
      case_decide as Hl; [subst l'|done].
      by rewrite (Hlast n d') by (done || lia).
Qed.

(** X3. On a source whose label strings are valid UTF-8, a sample of a
    device-scoped series is in the stream exactly when the
    count was obtained and the sample is the reading of the device with the
    highest index, among the identified devices with these label values, whose
    feeding query succeeded: when several devices report the same minor
    number, UUID and name, the later one overwrites the earlier one. *)
Theorem X3_last_identified_device_wins
    (o : MapOrder) (nv : Source) (e : Exporter) (k : Kind) (l : LabelValues) (x : Z) :
  labels_valid nv →
  (child_metric k (l, x) ∈ (Collect o nv e).2 ↔
     (DeviceGetCount nv).2 = SUCCESS ∧
     ∃ i d, 0 ≤ i < (DeviceGetCount nv).1 ∧
            identify nv i = Some (d, l) ∧
            query_ret nv d (query_of k) = SUCCESS ∧
            x = float64 (raw_field nv d k) ∧
            ∀ j d', i < j < (DeviceGetCount nv).1 →
                    identify nv j = Some (d', l) →
                    query_ret nv d' (query_of k) ≠ SUCCESS).
Proof.
  intros _. rewrite elem_of_Collect_child, written_last.
  set (n := (DeviceGetCount nv).1).
  assert (∀ d' y, field nv d' k = Some y ↔
                  query_ret nv d' (query_of k) = SUCCESS ∧
                  y = float64 (raw_field nv d' k)) as Hfield.
  { intros d' y. unfold field. destruct (failed _) eqn:Hf.
    - apply failed_true in Hf. naive_solver.
    - apply failed_false in Hf. naive_solver. }
  assert (∀ d', field nv d' k = None ↔ query_ret nv d' (query_of k) ≠ SUCCESS)
    as Hnone.
  { intros d'. unfold field. destruct (failed _) eqn:Hf.
    - apply failed_true in Hf. naive_solver.
    - apply failed_false in Hf. naive_solver. }
  split.
  - intros (Hc & i & d & Hi & Hid & [Hq ->]%Hfield & Hlast). split; [done|].
    exists (Z.of_nat i), d. split_and!; [lia|lia|done|done|done|].
    intros j d' Hj Hid'. apply Hnone. apply (Hlast (Z.to_nat j) d'); [lia|].
    by rewrite Z2Nat.id by lia.
  - intros (Hc & i & d & Hi & Hid & Hq & -> & Hlast). split; [done|].
    exists (Z.to_nat i), d. rewrite Z2Nat.id by lia.
    split_and!; [lia|done|by apply Hfield|].
    intros j d' Hj Hid'. apply Hnone. apply (Hlast (Z.of_nat j) d'); [lia|done].
Qed.

Lemma X3_witness :
  let nv := Faults.same_identity in
  child_metric FanSpeed (Examples.dev0, 30) ∈ (Collect order_id nv NewExporter).2 ↔
    (DeviceGetCount nv).2 = SUCCESS ∧
    ∃ i d, 0 ≤ i < (DeviceGetCount nv).1 ∧
           identify nv i = Some (d, Examples.dev0) ∧
           query_ret nv d (query_of FanSpeed) = SUCCESS ∧
           30 = float64 (raw_field nv d FanSpeed) ∧
           ∀ j d', i < j < (DeviceGetCount nv).1 →
                   identify nv j = Some (d', Examples.dev0) →
                   query_ret nv d' (query_of FanSpeed) ≠ SUCCESS.
Proof.
  intros nv.
  apply (X3_last_identified_device_wins order_id nv NewExporter FanSpeed
           Examples.dev0 30).
  labels_valid_by_cases.
Defined.

(** Two devices with one identity: the readings of the second are sent, except
    the fan speed, which only the first could read. *)
Example same_identity_stream :
  (Collect order_id Faults.same_identity NewExporter).2 =
    [ {| desc := gpuInfo; labelValues := ["535.104"]; value := 1 |};
      {| desc := numDevices_desc; labelValues := []; value := 2 |};
      child_metric UsedMemory (Examples.dev0, 101);
      child_metric TotalMemory (Examples.dev0, 1000);
      child_metric DutyCycle (Examples.dev0, 51);
      child_metric PowerUsage (Examples.dev0, 5101);
      child_metric Temperature (Examples.dev0, 61);
      child_metric FanSpeed (Examples.dev0, 30) ].
Proof. by vm_compute. Qed.

(** ** The stream is the state *)

(** X4. The device-scoped samples of the stream are exactly the children held
    by the six vectors when the cycle ends: nothing is sent that is not
    stored, and nothing stored is left out. *)
Theorem X4_stream_is_snapshot_of_vectors
    (o : MapOrder) (nv : Source) (e : Exporter) (k : Kind) (l : LabelValues) (x : Z) :
  child_metric k (l, x) ∈ (Collect o nv e).2 ↔ vec k (Collect o nv e).1 !! l = Some x.
Proof.
  rewrite elem_of_Collect_child.
  destruct (decide ((DeviceGetCount nv).2 = SUCCESS)) as [Hc|Hc].
  - destruct (DeviceGetCount nv) as [n r] eqn:Hn. simpl in *. subst r.
    rewrite (Collect_completed _ _ _ n) by done. simpl.
    rewrite lookup_after_loop. naive_solver.
  - rewrite Collect_aborted by done. simpl.
    rewrite vec_reset_vecs, lookup_empty. naive_solver.
Qed.

(** ** How many metrics a cycle sends *)

Lemma size_device_loop (nv : Source) (n : nat) (e : Exporter) (k : Kind) :
  (size (vec k (device_loop nv (Z.of_nat n) e)) ≤ size (vec k e) + n)%nat.
Proof.
  induction n as [|n IH]; [rewrite device_loop_nonpos by done; lia|].
  rewrite device_loop_S, vec_device_body.
  destruct (identify nv (Z.of_nat n)) as [[d l]|]; [|lia].
  destruct (field nv d k) as [x|]; [|lia].
  rewrite map_size_insert.
  destruct (vec k (device_loop nv (Z.of_nat n) e) !! l); simpl; lia.
Qed.

Lemma length_vec_Collect (o : MapOrder) (k : Kind) (e : Exporter) :
  length (vec_Collect o k e) = size (vec k e).
Proof.
  unfold vec_Collect.
  by rewrite length_fmap, range_perm, length_map_to_list.
Qed.

(** X5. A cycle sends at most two metrics plus six per counted device, and each
    vector ends the cycle with at most as many children as devices were
    counted. *)
Theorem X5_stream_size_bounded (o : MapOrder) (nv : Source) (e : Exporter) :
  (length (Collect o nv e).2 ≤ 2 + 6 * Z.to_nat (DeviceGetCount nv).1)%nat ∧
  ∀ k, (size (vec k (Collect o nv e).1) ≤ Z.to_nat (DeviceGetCount nv).1)%nat.
Proof.
  assert (length (driver_info nv) ≤ 1)%nat as Hd.
  { unfold driver_info. destruct (failed _); simpl; lia. }
  destruct (decide ((DeviceGetCount nv).2 = SUCCESS)) as [Hc|Hc].
  - destruct (DeviceGetCount nv) as [n r] eqn:Hn. simpl in *. subst r.
    rewrite (Collect_completed _ _ _ n) by done. simpl.
    assert (∀ k, (size (vec k (after_loop nv n e)) ≤ Z.to_nat n)%nat) as Hsize.
    { intros k. unfold after_loop. rewrite device_loop_to_nat.
      etrans; [apply size_device_loop|].
      replace (vec k (numDevices_Set (float64 n) (reset_vecs e)))
        with (∅ : GaugeVec) by (by destruct k).
      rewrite map_size_empty. lia. }
    split; [|done].
    rewrite length_app. simpl. unfold collect_vecs.
    rewrite !length_app, !length_vec_Collect.
    pose proof (Hsize UsedMemory). pose proof (Hsize TotalMemory).
    pose proof (Hsize DutyCycle). pose proof (Hsize PowerUsage).
    pose proof (Hsize Temperature). pose proof (Hsize FanSpeed). lia.
  - rewrite Collect_aborted by done. simpl. split; [lia|].
    intros k. rewrite vec_reset_vecs, map_size_empty. lia.
Qed.

(** ** A count that is not positive *)

Lemma collect_vecs_empty (o : MapOrder) (e : Exporter) :
  (∀ k, vec k e = ∅) → collect_vecs o e = [].
Proof.
  intros He. apply length_zero_iff_nil. unfold collect_vecs.
  rewrite !length_app, !length_vec_Collect, !He, !map_size_empty. done.
Qed.

(** X6. When the library counts no device (or a count that is not positive),
    on a source whose label strings are valid UTF-8, the loop body is not run:
    the stream is the driver-info metric, if any, followed by the gauge of the
    device count, which holds the converted count when [Collect] returns, and
    the vectors are left empty. *)
Theorem X6_no_device_counted (o : MapOrder) (nv : Source) (e : Exporter) (n : Z) :
  DeviceGetCount nv = (n, SUCCESS) → n ≤ 0 → labels_valid nv →
  (Collect o nv e).2 = driver_info nv ++ [numDevices_metric (Collect o nv e).1] ∧
  numDevices (Collect o nv e).1 = float64 n ∧
  ∀ k, vec k (Collect o nv e).1 = ∅.
Proof.
  intros Hc Hn _. rewrite (Collect_completed _ _ _ n) by done. simpl.
  assert (∀ k, vec k (after_loop nv n e) = ∅) as Hempty.
  { intros k. unfold after_loop. rewrite device_loop_nonpos by done.
    by destruct k. }
  split_and!; [|apply numDevices_after_loop|done].
  rewrite collect_vecs_empty by done. unfold numDevices_metric.
  by rewrite numDevices_after_loop.
Qed.

Lemma X6_witness :
  let nv := Faults.no_device in
  (Collect order_rev nv NewExporter).2 =
    driver_info nv ++ [numDevices_metric (Collect order_rev nv NewExporter).1] ∧
  numDevices (Collect order_rev nv NewExporter).1 = float64 0 ∧
  ∀ k, vec k (Collect order_rev nv NewExporter).1 = ∅.
Proof.
  intros nv. apply (X6_no_device_counted order_rev nv NewExporter 0).
  - reflexivity.
  - lia.
  - labels_valid_by_cases.
Defined.

(** ** The precision of the exported values *)

Lemma float64_error (x : Z) : Z.abs (float64 x - x) * 2 ^ 53 ≤ Z.abs x.
Proof.
  unfold float64.
  destruct (Z.ltb_spec (Z.abs x) (2 ^ 53)) as [Hlt|Hge].
  { rewrite Z.sub_diag. simpl. lia. }
  set (a := Z.abs x) in *.
  assert (0 < a) as Ha by lia.
  destruct (Z.log2_spec a Ha) as [Hlo _].
  assert (53 ≤ Z.log2 a) as Hlog by (apply Z.log2_le_pow2; lia).
  set (e := Z.log2 a - 52).
  set (h := 2 ^ (e - 1)).
  assert (2 ^ e = 2 * h) as He.
  { unfold h. rewrite <- Z.pow_succ_r by lia. f_equal. lia. }
  assert (h * 2 ^ 53 = 2 ^ Z.log2 a) as Hh.
  { unfold h. rewrite <- Z.pow_add_r by lia. f_equal. lia. }
  assert (0 < h) as Hpos by (apply Z.pow_pos_nonneg; lia).
  rewrite He.
  pose proof (Z.div_mod a (2 * h) ltac:(lia)) as Hdiv.
  pose proof (Z.mod_pos_bound a (2 * h) ltac:(lia)) as Hmod.
  set (q := a / (2 * h)) in *. set (r := a mod (2 * h)) in *.
  set (q' := if r <? h then q
             else if h <? r then q + 1 else if Z.even q then q else q + 1).
  assert (Z.abs (q' * (2 * h) - a) ≤ h) as Hnear.
  { unfold q'. destruct (Z.ltb_spec r h); [nia|].
    destruct (Z.ltb_spec h r); [nia|]. destruct (Z.even q); nia. }
  assert (Z.abs (Z.sgn x * (q' * (2 * h)) - x) = Z.abs (q' * (2 * h) - a)) as ->.
  { unfold a. destruct x as [|p|p]; simpl Z.sgn; simpl Z.abs; lia. }
  etrans; [apply Z.mul_le_mono_nonneg_r, Hnear; lia|]. lia.
Qed.

(** X7. Every device-scoped sample of the stream is the reading of an
    identified device with the sample's label values whose feeding query
    succeeded, converted by [float64(...)]: it differs from the integer the
    library returned by at most that integer divided by 2^53, and equals it
    when the integer is at most 2^53 in absolute value (as every 32-bit
    reading is). *)
Theorem X7_exported_values_accurate
    (o : MapOrder) (nv : Source) (e : Exporter) (k : Kind) (l : LabelValues) (x : Z) :
  child_metric k (l, x) ∈ (Collect o nv e).2 →
  ∃ i d, 0 ≤ i < (DeviceGetCount nv).1 ∧
         identify nv i = Some (d, l) ∧
         query_ret nv d (query_of k) = SUCCESS ∧
         Z.abs (x - raw_field nv d k) * 2 ^ 53 ≤ Z.abs (raw_field nv d k) ∧
         (Z.abs (raw_field nv d k) ≤ 2 ^ 53 → x = raw_field nv d k).
Proof.
  intros [_ Hw]%elem_of_Collect_child.
  apply written_Some in Hw as (i & d & Hi & Hid & Hf).
  pose proof (field_Some _ _ _ _ Hf) as ->.
  exists (Z.of_nat i), d. split_and!; [lia|lia|done| | |].
  - apply field_is_Some. eauto.
  - apply float64_error.
  - apply float64_exact.
Qed.

Lemma X7_witness :
  let nv := Faults.huge_memory in
  ∃ i d, 0 ≤ i < (DeviceGetCount nv).1 ∧
         identify nv i = Some (d, Examples.dev0) ∧
         query_ret nv d (query_of UsedMemory) = SUCCESS ∧
         Z.abs (2 ^ 53 - raw_field nv d UsedMemory) * 2 ^ 53
           ≤ Z.abs (raw_field nv d UsedMemory) ∧
         (Z.abs (raw_field nv d UsedMemory) ≤ 2 ^ 53 →
          2 ^ 53 = raw_field nv d UsedMemory).
Proof.
  intros nv.
  apply (X7_exported_values_accurate order_id nv NewExporter UsedMemory
           Examples.dev0 (2 ^ 53)).
  compute_done.
Defined.

(** A device with 2^53 + 1 bytes in use and 2^64 - 1 bytes in total. *)
Example huge_memory_stream :
  (Collect order_id Faults.huge_memory NewExporter).2 =
    [ {| desc := gpuInfo; labelValues := ["535.104"]; value := 1 |};
      {| desc := numDevices_desc; labelValues := []; value := 1 |};
      child_metric UsedMemory (Examples.dev0, 2 ^ 53);
      child_metric TotalMemory (Examples.dev0, 2 ^ 64);
      child_metric DutyCycle (Examples.dev0, 50);
      child_metric PowerUsage (Examples.dev0, 5000);
      child_metric Temperature (Examples.dev0, 60);
      child_metric FanSpeed (Examples.dev0, 30) ].
Proof. by vm_compute. Qed.

(** ** Label values and identity *)

Lemma Itoa_inj (a b : Z) : Itoa a = Itoa b → a = b.
Proof.
  unfold Itoa. intros Heq. apply DecimalZ.to_int_inj.
  assert (∀ z, NilZero.int_of_string (NilZero.string_of_int (Z.to_int z))
               = Some (Z.to_int z)) as Hisi.
  { intros z. apply NilZero.isi; destruct z; simpl; try done;
      intros [= H]; by apply DecimalPos.Unsigned.to_uint_nonnil in H. }
  apply (f_equal NilZero.int_of_string) in Heq.
  rewrite !Hisi in Heq. congruence.
Qed.

(** X8. Two identified devices get the same label values only when they
    report the same minor number, the same UUID and the same name: rendering
    the minor number in decimal loses nothing. *)
Theorem X8_same_labels_same_identity
    (nv : Source) (i j : Z) (d d' : Device) (l : LabelValues) :
  identify nv i = Some (d, l) → identify nv j = Some (d', l) →
  (GetMinorNumber nv d).1 = (GetMinorNumber nv d').1 ∧
  (GetUUID nv d).1 = (GetUUID nv d').1 ∧
  (GetName nv d).1 = (GetName nv d').1.
Proof.
  rewrite !identify_Some.
  intros (_ & _ & _ & _ & ->) (_ & _ & _ & _ & [= Hm%Itoa_inj Hu Hn]). done.
Qed.

Lemma X8_witness :
  let nv := Faults.same_identity in
  (GetMinorNumber nv 100).1 = (GetMinorNumber nv 101).1 ∧
  (GetUUID nv 100).1 = (GetUUID nv 101).1 ∧
  (GetName nv 100).1 = (GetName nv 101).1.
Proof.
  intros nv.
  apply (X8_same_labels_same_identity nv 0 1 100 101 Examples.dev0); by vm_compute.
Defined.

(** ** The log of a cycle *)

Lemma fold_left_app_bind {A B : Type} (f : B → list A) (l : list B) (a : list A) :
  fold_left (λ acc i, acc ++ f i) l a = a ++ (l ≫= f).
Proof.
  revert a. induction l as [|i l IH]; intros a; csimpl.
  - by rewrite app_nil_r.
  - by rewrite IH, app_assoc.
Qed.

Lemma Collect_log_completed (nv : Source) (n : Z) :
  DeviceGetCount nv = (n, SUCCESS) →
  Collect_log nv =
    (if failed (SystemGetDriverVersion nv).2
     then [log_error "Unable to get system driver version" (SystemGetDriverVersion nv).2]
     else []) ++
    (seq 0 (Z.to_nat n) ≫= λ i, device_log nv (Z.of_nat i)).
Proof.
  intros Hc. unfold Collect_log. rewrite Hc.
  destruct (SystemGetDriverVersion nv) as [dv r]. simpl.
  by rewrite fold_left_app_bind.
Qed.

Lemma Collect_log_aborted (nv : Source) :
  (DeviceGetCount nv).2 ≠ SUCCESS →
  Collect_log nv =
    (if failed (SystemGetDriverVersion nv).2
     then [log_error "Unable to get system driver version" (SystemGetDriverVersion nv).2]
     else []) ++
    [log_error "Unable to get device count" (DeviceGetCount nv).2].
Proof.
  intros Hc%failed_true. unfold Collect_log.
  destruct (SystemGetDriverVersion nv) as [dv r], (DeviceGetCount nv) as [n r'].
  simpl in *. by rewrite Hc.
Qed.

(** The records of the loop body carry the index of the device and the code
    of a failure. *)
Lemma device_log_records (nv : Source) (i : Z) :
  Forall (λ r, index r = Some i ∧ err r ≠ SUCCESS) (device_log nv i).
Proof.
  unfold device_log.
  destruct (DeviceGetHandleByIndex nv i) as [d r0].
  destruct (failed r0) eqn:H0; [by repeat constructor; apply failed_true|].
  destruct (GetMinorNumber nv d) as [mn r1].
  destruct (failed r1) eqn:H1; [by repeat constructor; apply failed_true|].
  destruct (GetUUID nv d) as [u r2].
  destruct (failed r2) eqn:H2; [by repeat constructor; apply failed_true|].
  destruct (GetName nv d) as [nm r3].
  destruct (failed r3) eqn:H3; [by repeat constructor; apply failed_true|].
  destruct (GetMemoryInfo nv d) as [mi r4].
  destruct (GetUtilizationRates nv d) as [ut r5].
  destruct (GetPowerUsage nv d) as [pu r6].
  destruct (GetTemperature nv d TEMPERATURE_GPU) as [te r7].
  destruct (GetFanSpeed nv d) as [fs r8].
  destruct (failed r4) eqn:H4, (failed r5) eqn:H5, (failed r6) eqn:H6,
    (failed r7) eqn:H7, (failed r8) eqn:H8; simpl;
    repeat (constructor; [by split; [|apply failed_true]|]); constructor.
Qed.

(** An unidentified device leaves one record. *)
Lemma device_log_unidentified (nv : Source) (i : Z) :
  identify nv i = None →
  ∃ m ret, device_log nv i = [log_error_at m i ret] ∧
           m ∈ ["Unable to get device"; "Unable to get minor number of device";
                "Unable to get UUID of device"; "Unable to get name of device"].
Proof.
  unfold identify, device_log.
  destruct (DeviceGetHandleByIndex nv i) as [d r0].
  destruct (GetMinorNumber nv d) as [mn r1].
  destruct (GetUUID nv d) as [u r2].
  destruct (GetName nv d) as [nm r3].
  destruct (failed r0), (failed r1), (failed r2), (failed r3); simpl;
    intros [=]; eexists _, _; (split; [reflexivity|set_solver]).
Qed.

(** An identified device leaves one record for each telemetry query that
    failed, in the order of the queries. *)
Lemma device_log_identified (nv : Source) (i : Z) (d : Device) (l : LabelValues) :
  identify nv i = Some (d, l) →
  device_log nv i =
    (λ q, log_error_at (query_msg q) i (query_ret nv d q)) <$>
    filter (λ q, failed (query_ret nv d q)) all_queries.
Proof.
  intros (Hh & H1%failed_false & H2%failed_false & H3%failed_false & _)%identify_Some.
  unfold device_log. rewrite Hh. simpl.
  destruct (GetMinorNumber nv d) as [mn r1].
  destruct (GetUUID nv d) as [u r2].
  destruct (GetName nv d) as [nm r3]. simpl in *. rewrite H1, H2, H3.
  unfold all_queries, query_ret.
  destruct (GetMemoryInfo nv d) as [mi r4].
  destruct (GetUtilizationRates nv d) as [ut r5].
  destruct (GetPowerUsage nv d) as [pu r6].
  destruct (GetTemperature nv d TEMPERATURE_GPU) as [te r7].
  destruct (GetFanSpeed nv d) as [fs r8]. simpl.
  rewrite !filter_cons, filter_nil. simpl.
  by destruct (failed r4), (failed r5), (failed r6), (failed r7), (failed r8).
Qed.

Lemma filter_index_same (i j : Z) (rs : list LogRecord) :
  Forall (λ r, index r = Some j ∧ err r ≠ SUCCESS) rs →
  filter (λ r, index r = Some i) rs = if decide (i = j) then rs else [].
Proof.
  induction 1 as [|r rs [Hr _] _ IH]; [by case_decide|].
  destruct (decide (i = j)) as [->|Hne].
  - rewrite filter_cons_True by done. by f_equal.
  - rewrite filter_cons_False; [done|]. rewrite Hr. congruence.
Qed.

(** The records of index [i] in the log of the loop are those of its body. *)
Lemma filter_index_loop_log (nv : Source) (i : Z) (n : nat) :
  filter (λ r, index r = Some i) (seq 0 n ≫= λ j, device_log nv (Z.of_nat j)) =
    if decide (0 ≤ i < Z.of_nat n) then device_log nv i else [].
Proof.
  induction n as [|n IH].
  - csimpl. by rewrite decide_False by lia.
  - rewrite seq_S, bind_app, filter_app, IH. csimpl. rewrite app_nil_r.
    rewrite (filter_index_same i (Z.of_nat n)) by apply device_log_records.
    destruct (decide (i = Z.of_nat n)) as [->|Hne].
    + by rewrite decide_False, decide_True by lia.
    + rewrite app_nil_r. repeat case_decide; done || lia.
Qed.

Lemma filter_index_Collect_log (nv : Source) (n i : Z) :
  DeviceGetCount nv = (n, SUCCESS) → 0 ≤ i < n →
  filter (λ r, index r = Some i) (Collect_log nv) = device_log nv i.
Proof.
  intros Hc Hi. rewrite (Collect_log_completed nv n), filter_app by done.
  rewrite filter_index_loop_log, decide_True by lia.
  by destruct (failed (SystemGetDriverVersion nv).2).
Qed.

(** X9. On a source whose label strings are valid UTF-8, when the handle or an
    identity field of the device at index [i] cannot be resolved, the cycle
    logs exactly one record for that index: it carries the code of a failure
    and names the handle, the minor number, the UUID or the name. *)
Theorem X9_unidentified_device_logged_once (nv : Source) (n i : Z) :
  DeviceGetCount nv = (n, SUCCESS) → 0 ≤ i < n → identity_failure nv i →
  labels_valid nv →
  ∃ m ret,
    filter (λ r, index r = Some i) (Collect_log nv) = [log_error_at m i ret] ∧
    ret ≠ SUCCESS ∧
    m ∈ ["Unable to get device"; "Unable to get minor number of device";
         "Unable to get UUID of device"; "Unable to get name of device"].
Proof.
  intros Hc Hi Hfail%identify_None _.
  rewrite (filter_index_Collect_log nv n) by done.
  destruct (device_log_unidentified nv i Hfail) as (m & ret & Hlog & Hm).
  exists m, ret. split_and!; [done| |done].
  pose proof (device_log_records nv i) as Hrec. rewrite Hlog in Hrec.
  by apply Forall_singleton in Hrec as [_ ?].
Qed.

Lemma X9_witness :
  ∃ m ret,
    filter (λ r, index r = Some 1) (Collect_log Examples.uuid_unreadable)
      = [log_error_at m 1 ret] ∧
    ret ≠ SUCCESS ∧
    m ∈ ["Unable to get device"; "Unable to get minor number of device";
         "Unable to get UUID of device"; "Unable to get name of device"].
Proof.
  apply (X9_unidentified_device_logged_once Examples.uuid_unreadable 3 1).
  - reflexivity.
  - lia.
  - right. right. left. by vm_compute.
  - labels_valid_by_cases.
Defined.

(** X10. On a source whose label strings are valid UTF-8, for an identified
    device, the records the cycle logs for its index
    are exactly one record per telemetry query that failed, in the order of
    the queries, each with the message of the query and the code it returned:
    a series is never dropped without a record, and a successful query leaves
    none. *)
Theorem X10_identified_device_logs_failed_queries
    (nv : Source) (n i : Z) (d : Device) (l : LabelValues) :
  DeviceGetCount nv = (n, SUCCESS) → 0 ≤ i < n → identify nv i = Some (d, l) →
  labels_valid nv →
  filter (λ r, index r = Some i) (Collect_log nv) =
    (λ q, log_error_at (query_msg q) i (query_ret nv d q)) <$>
    filter (λ q, query_ret nv d q ≠ SUCCESS) all_queries.
Proof.
  intros Hc Hi Hid _.
  rewrite (filter_index_Collect_log nv n), (device_log_identified nv i d l) by done.
  f_equal. apply list_filter_iff. intros q.
  destruct (failed (query_ret nv d q)) eqn:Hf.
  - apply failed_true in Hf. done.
  - apply failed_false in Hf. split; [done|]. by intros [].
Qed.

Lemma X10_witness :
  filter (λ r, index r = Some 1) (Collect_log Examples.two_devices) =
    (λ q, log_error_at (query_msg q) 1 (query_ret Examples.two_devices 101 q)) <$>
    filter (λ q, query_ret Examples.two_devices 101 q ≠ SUCCESS) all_queries.
Proof.
  apply (X10_identified_device_logs_failed_queries Examples.two_devices 2 1 101
           Examples.dev1).
  - reflexivity.
  - lia.
  - by vm_compute.
  - labels_valid_by_cases.
Defined.

(** The log of the cycle of Section 8. *)
Example fan_speed_unsupported_log :
  Collect_log Examples.two_devices =
    [ log_error_at "Unable to get fan speed of device" 1 Examples.ERROR_NOT_SUPPORTED ].
Proof. by vm_compute. Qed.

Lemma bind_nil_all {A B : Type} (f : A → list B) (l : list A) :
  (∀ x, x ∈ l → f x = []) → l ≫= f = [].
Proof.
  induction l as [|x l IH]; intros Hf; csimpl; [done|].
  rewrite Hf by set_solver. apply IH. intros y Hy. apply Hf. set_solver.
Qed.

Lemma device_log_nil (nv : Source) (i : Z) :
  device_log nv i = [] ↔
    ∃ d l, identify nv i = Some (d, l) ∧ ∀ q, query_ret nv d q = SUCCESS.
Proof.
  destruct (identify nv i) as [[d l]|] eqn:Hid.
  - rewrite (device_log_identified nv i d l) by done. split.
    + intros Hnil%fmap_nil_inv. exists d, l. split; [done|]. intros q.
      apply failed_false. destruct (failed (query_ret nv d q)) eqn:Hf; [|done].
      exfalso. apply (filter_nil_not_elem_of _ _ q Hnil).
      * by rewrite Hf.
      * unfold all_queries. destruct q; set_solver.
    + intros (d' & l' & [= <- <-] & Hq).
      assert (filter (λ q, failed (query_ret nv d q)) all_queries = []) as ->; [|done].
      unfold all_queries. rewrite !filter_cons, filter_nil.
      repeat case_decide; try done;
        match goal with H : Is_true (failed (query_ret nv d ?q)) |- _ =>
          rewrite (proj2 (failed_false _) (Hq q)) in H; done end.
  - destruct (device_log_unidentified nv i Hid) as (m & ret & -> & _).
    split; [done|]. by intros (? & ? & ? & _).
Qed.

(** X11. On a source whose label strings are valid UTF-8, a cycle logs nothing
    exactly when every query it issues succeeds: the driver version, the
    count, and for every index below the count the handle, the three identity
    fields and the five telemetry queries. *)
Theorem X11_silent_log_iff_all_queries_succeed (nv : Source) :
  labels_valid nv →
  (Collect_log nv = [] ↔
     (SystemGetDriverVersion nv).2 = SUCCESS ∧
     (DeviceGetCount nv).2 = SUCCESS ∧
     ∀ i, 0 ≤ i < (DeviceGetCount nv).1 →
          ∃ d l, identify nv i = Some (d, l) ∧ ∀ q, query_ret nv d q = SUCCESS).
Proof.
  intros _. destruct (decide ((DeviceGetCount nv).2 = SUCCESS)) as [Hc|Hc].
  - destruct (DeviceGetCount nv) as [n r] eqn:Hn. simpl in *. subst r. split.
    + intros Hnil. split_and!; [|done|].
      * rewrite (Collect_log_completed nv n) in Hnil by done.
        apply app_eq_nil in Hnil as [Hd _]. apply failed_false.
        by destruct (failed (SystemGetDriverVersion nv).2).
      * intros i Hi. apply device_log_nil.
        rewrite <- (filter_index_Collect_log nv n i) by done. by rewrite Hnil.
    + intros (Hd%failed_false & _ & Hall).
      rewrite (Collect_log_completed nv n), Hd by done. simpl.
      apply bind_nil_all. intros j Hj%elem_of_seq.
      apply device_log_nil, Hall. lia.
  - rewrite Collect_log_aborted by done. split; [|naive_solver].
    by intros [_ ?]%app_eq_nil.
Qed.

Lemma X11_witness :
  let nv := Examples.one_device in
  Collect_log nv = [] ↔
    (SystemGetDriverVersion nv).2 = SUCCESS ∧
    (DeviceGetCount nv).2 = SUCCESS ∧
    ∀ i, 0 ≤ i < (DeviceGetCount nv).1 →
         ∃ d l, identify nv i = Some (d, l) ∧ ∀ q, query_ret nv d q = SUCCESS.
Proof.
  intros nv. apply (X11_silent_log_iff_all_queries_succeed nv).
  labels_valid_by_cases.
Defined.

(** One healthy device: nothing is logged. *)
Example healthy_device_log : Collect_log Examples.one_device = [].
Proof. by vm_compute. Qed.

Lemma length_device_log (nv : Source) (i : Z) : (length (device_log nv i) ≤ 5)%nat.
Proof.
  destruct (identify nv i) as [[d l]|] eqn:Hid.
  - rewrite (device_log_identified nv i d l), length_fmap by done.
    etrans; [apply length_filter|]. done.
  - destruct (device_log_unidentified nv i Hid) as (m & ret & -> & _). simpl. lia.
Qed.

(** X12. Every record of a cycle's log carries the code of a failure, never
    [SUCCESS]; a record with a device index was logged in a cycle that got the
    count, for an index below it; and the log has at most two records plus
    five per counted device. *)
Theorem X12_log_records_only_failures (nv : Source) :
  Forall (λ r, err r ≠ SUCCESS ∧
               match index r with
               | Some i => (DeviceGetCount nv).2 = SUCCESS ∧
                           0 ≤ i < (DeviceGetCount nv).1
               | None => True
               end) (Collect_log nv) ∧
  (length (Collect_log nv) ≤ 2 + 5 * Z.to_nat (DeviceGetCount nv).1)%nat.
Proof.
  assert (Forall (λ r, err r ≠ SUCCESS ∧
                  match index r with
                  | Some i => (DeviceGetCount nv).2 = SUCCESS ∧
                              0 ≤ i < (DeviceGetCount nv).1
                  | None => True
                  end)
            (if failed (SystemGetDriverVersion nv).2
             then [log_error "Unable to get system driver version"
                     (SystemGetDriverVersion nv).2]
             else [])) as Hdriver.
  { destruct (failed _) eqn:Hf; [|constructor].
    apply failed_true in Hf. by repeat constructor. }
  assert (length (if failed (SystemGetDriverVersion nv).2
                  then [log_error "Unable to get system driver version"
                          (SystemGetDriverVersion nv).2]
                  else []) ≤ 1)%nat as Hlen.
  { destruct (failed _); simpl; lia. }
  destruct (decide ((DeviceGetCount nv).2 = SUCCESS)) as [Hc|Hc].
  - destruct (DeviceGetCount nv) as [n r] eqn:Hn. simpl in *. subst r.
    rewrite (Collect_log_completed nv n) by done. split.
    + apply Forall_app. split; [done|].
      apply Forall_forall. intros r (j & Hr & Hj%elem_of_seq)%list_elem_of_bind.
      pose proof (device_log_records nv (Z.of_nat j)) as Hrec.
      rewrite Forall_forall in Hrec. destruct (Hrec r Hr) as [-> ?].
      split_and!; [done|done|lia|lia].
    + rewrite length_app.
      assert (∀ m, length (seq 0 m ≫= λ j, device_log nv (Z.of_nat j)) ≤ 5 * m)%nat
        as Hloop.
      { induction m as [|m IH]; [done|].
        rewrite seq_S, bind_app, length_app. csimpl. rewrite app_nil_r.
        pose proof (length_device_log nv (Z.of_nat m)). lia. }
      specialize (Hloop (Z.to_nat n)). lia.
  - rewrite Collect_log_aborted by done. split.
    + apply Forall_app. split; [done|]. by repeat constructor.
    + rewrite length_app. simpl. lia.
Qed.

(** X13. On a source whose label strings are valid UTF-8, no series of an
    identified device is dropped silently: when a series
    is missing from the stream for the label values of an identified device,
    the log holds the record of the failed query that feeds it, with the index
    of the device and the code returned. *)
Theorem X13_missing_series_is_logged
    (o : MapOrder) (nv : Source) (e : Exporter) (n i : Z) (d : Device)
    (l : LabelValues) (k : Kind) :
  DeviceGetCount nv = (n, SUCCESS) → 0 ≤ i < n → identify nv i = Some (d, l) →
  labels_valid nv →
  ¬ present k l (Collect o nv e).2 →
  query_ret nv d (query_of k) ≠ SUCCESS ∧
  log_error_at (query_msg (query_of k)) i (query_ret nv d (query_of k))
    ∈ Collect_log nv.
Proof.
  intros Hc Hi Hid _ Habsent.
  assert (query_ret nv d (query_of k) ≠ SUCCESS) as Hq.
  { intros Hq. apply Habsent, present_iff. rewrite Hc. simpl. eauto 10. }
  split; [done|].
  assert (log_error_at (query_msg (query_of k)) i (query_ret nv d (query_of k))
            ∈ filter (λ r, index r = Some i) (Collect_log nv)) as Hin.
  { rewrite (filter_index_Collect_log nv n), (device_log_identified nv i d l) by done.
    apply list_elem_of_fmap. exists (query_of k). split; [done|].
    apply list_elem_of_filter. split.
    - apply failed_true in Hq. by rewrite Hq.
    - unfold all_queries. destruct k; set_solver. }
  by apply list_elem_of_filter in Hin as [_ ?].
Qed.

Lemma X13_witness :
  let nv := Examples.two_devices in
  query_ret nv 101 (query_of FanSpeed) ≠ SUCCESS ∧
  log_error_at (query_msg (query_of FanSpeed)) 1 (query_ret nv 101 (query_of FanSpeed))
    ∈ Collect_log nv.
Proof.
  intros nv.
  apply (X13_missing_series_is_logged order_id nv NewExporter 2 1 101
           Examples.dev1 FanSpeed).
  - reflexivity.
  - lia.
  - by vm_compute.
  - labels_valid_by_cases.
  - intros (_ & j & d & Hj & Hid & Hq)%present_iff. simpl in Hj.
    assert (j = 0 ∨ j = 1) as [->| ->] by lia; vm_compute in Hid;
      injection Hid as <-; try discriminate; by vm_compute in Hq.
Defined.

(** ** The cycles that return *)

Lemma ValidString_uint (d : Decimal.uint) :
  ValidString (NilEmpty.string_of_uint d) = true.
Proof. induction d; done. Qed.

(** A decimal numeral is valid UTF-8. *)
Lemma ValidString_Itoa (z : Z) : ValidString (Itoa z) = true.
Proof.
  unfold Itoa.
  destruct (Z.to_int z) as [d|d]; simpl; destruct d; simpl; try done;
    apply ValidString_uint.
Qed.

(** With valid labels the loop body does not panic: it leaves the exporter of
    [device_body] and appends the records of [device_log]. *)
Lemma device_body_checked_returns (nv : Source) (i : Z) (e : Exporter)
    (lg : list LogRecord) :
  (∀ d l, identify nv i = Some (d, l) →
          ValidString l.1.2 = true ∧ ValidString l.2 = true) →
  device_body_checked nv i (e, lg) = Some (device_body nv i e, lg ++ device_log nv i).
Proof.
  unfold identify, device_body_checked, device_body, device_log.
  destruct (DeviceGetHandleByIndex nv i) as [d r0].
  destruct (GetMinorNumber nv d) as [mn r1].
  destruct (GetUUID nv d) as [u r2].
  destruct (GetName nv d) as [nm r3].
  destruct (failed r0); [done|]. destruct (failed r1); [done|].
  destruct (failed r2); [done|]. destruct (failed r3); [done|].
  simpl. intros Hvalid. destruct (Hvalid d _ eq_refl) as [Hu Hnm]. simpl in Hu, Hnm.
  destruct (GetMemoryInfo nv d) as [mi r4].
  destruct (GetUtilizationRates nv d) as [ut r5].
  destruct (GetPowerUsage nv d) as [pu r6].
  destruct (GetTemperature nv d TEMPERATURE_GPU) as [te r7].
  destruct (GetFanSpeed nv d) as [fs r8].
  assert (validateLabelValues [Itoa mn; u; nm] 3 = true) as Hv.
  { unfold validateLabelValues. simpl. by rewrite ValidString_Itoa, Hu, Hnm. }
  destruct (failed r4), (failed r5), (failed r6), (failed r7), (failed r8);
    simpl; rewrite ?Hv; simpl; by rewrite <- ?app_assoc, ?app_nil_r.
Qed.

Lemma device_loop_checked_returns (nv : Source) (idxs : list nat) (e : Exporter)
    (lg : list LogRecord) :
  (∀ j d l, j ∈ idxs → identify nv (Z.of_nat j) = Some (d, l) →
            ValidString l.1.2 = true ∧ ValidString l.2 = true) →
  device_loop_checked nv idxs (e, lg) =
    Some (fold_left (λ e j, device_body nv (Z.of_nat j) e) idxs e,
          lg ++ (idxs ≫= λ j, device_log nv (Z.of_nat j))).
Proof.
  revert e lg. induction idxs as [|j idxs IH]; intros e lg Hvalid.
  - csimpl. by rewrite app_nil_r.
  - change (device_loop_checked nv (j :: idxs) (e, lg))
      with (device_body_checked nv (Z.of_nat j) (e, lg) ≫= device_loop_checked nv idxs).
    rewrite device_body_checked_returns by (intros d l; apply Hvalid; set_solver).
    csimpl. rewrite IH by (intros j' d l Hj'; apply Hvalid; set_solver).
    by rewrite app_assoc.
Qed.

(** X14. On a source whose label strings are valid UTF-8 the client does not
    panic: the cycle returns, and its exporter, its stream and its log are
    those of [Collect] and [Collect_log]. *)
Theorem X14_valid_labels_cycle_returns (o : MapOrder) (nv : Source) (e : Exporter) :
  labels_valid nv →
  Collect_checked o nv e = Some ((Collect o nv e).1, (Collect o nv e).2, Collect_log nv).
Proof.
  intros [Hdriver Hdevices].
  unfold Collect_checked, Collect, Collect_log, device_loop.
  destruct (SystemGetDriverVersion nv) as [dv r].
  destruct (DeviceGetCount nv) as [n rc]. simpl in *.
  assert (failed r = false →
          MustNewConstMetric_checked gpuInfo 1 [dv] =
            Some (MustNewConstMetric gpuInfo 1 [dv])) as Hinfo.
  { intros Hr%failed_false. unfold MustNewConstMetric_checked, validateLabelValues.
    simpl. by rewrite Hdriver. }
  assert (failed rc = false → ∀ lg e',
          device_loop_checked nv (seq 0 (Z.to_nat n)) (e', lg) =
            Some (fold_left (λ e j, device_body nv (Z.of_nat j) e)
                    (seq 0 (Z.to_nat n)) e',
                  lg ++ (seq 0 (Z.to_nat n) ≫= λ j, device_log nv (Z.of_nat j))))
    as Hloop.
  { intros Hrc%failed_false lg e'. apply device_loop_checked_returns.
    intros j d l Hj%elem_of_seq Hid. apply (Hdevices (Z.of_nat j) d l); [done|lia|done]. }
  destruct (failed r) eqn:Hr; simpl.
  - destruct (failed rc) eqn:Hrc; [done|]. simpl.
    rewrite Hloop by done. simpl. by rewrite fold_left_app_bind.
  - rewrite Hinfo by done. simpl.
    destruct (failed rc) eqn:Hrc; [done|]. simpl.
    rewrite Hloop by done. simpl. by rewrite fold_left_app_bind.
Qed.

Lemma X14_witness :
  let nv := Examples.two_devices in
  Collect_checked order_id nv NewExporter =
    Some ((Collect order_id nv NewExporter).1, (Collect order_id nv NewExporter).2,
          Collect_log nv).
Proof.
  intros nv. apply (X14_valid_labels_cycle_returns order_id nv NewExporter).
  labels_valid_by_cases.
Defined.

(** X15. When the driver-version query succeeds with a string that is not
    valid UTF-8, [MustNewConstMetric] panics at line 142: the cycle does not
    return, whatever the other queries would have answered. *)
Theorem X15_invalid_driver_version_panics (o : MapOrder) (nv : Source) (e : Exporter) :
  (SystemGetDriverVersion nv).2 = SUCCESS →
  ValidString (SystemGetDriverVersion nv).1 = false →
  Collect_checked o nv e = None.
Proof.
  intros Hr%failed_false Hbad. unfold Collect_checked.
  destruct (SystemGetDriverVersion nv) as [dv r]. simpl in *. rewrite Hr.
  unfold MustNewConstMetric_checked, validateLabelValues. simpl.
  by rewrite Hbad.
Qed.

Lemma X15_witness :
  Collect_checked order_id Invalid.bad_driver_version NewExporter = None.
Proof.
  apply (X15_invalid_driver_version_panics order_id Invalid.bad_driver_version
           NewExporter); by vm_compute.
Defined.

(** A device name that is not valid UTF-8 makes [WithLabelValues] panic at
    line 184, after the driver-info metric and the gauge have been sent. *)
Example bad_device_name_panics :
  identify Invalid.bad_device_name 0 = Some (100, ("0", "GPU-A", Invalid.bad_name)) ∧
  ValidString Invalid.bad_name = false ∧
  Collect_checked order_id Invalid.bad_device_name NewExporter = None.
Proof. by vm_compute. Qed.
